(** * tools/auth.js: the authorization gate of the exchange server

    A shallow embedding of [tools/auth.js]: the bearer-token and HMAC gates,
    the OTP checks, the reset-password flow and the API-key life cycle, with
    the properties the specification states about them.

    Conventions.
    - A promise is its settlement: [resolve a] or [reject e]; [.then] is the
      bind of that error monad.
    - The store behind [dbQuery] and [getModel] is an explicit [Db] value;
      functions that write return the new store next to their promise.
    - The clock is an explicit argument [now], in milliseconds
      ([Date.now()]); [moment().unix()] is [now / 1000].
    - The npm packages the file calls ([crypto], [jsonwebtoken], [otp]) and
      the engine's coercions are the methods of the class [Runtime]: the
      theorems hold for every implementation of them. *)

From Stdlib Require Import ZArith String Ascii Bool Lia.
From stdpp Require Import base option list strings pretty sorting gmap.

Open Scope Z_scope.

(** ** Messages and errors *)

(** The constants imported from [../messages]. *)
Inductive Message :=
  | NOT_AUTHORIZED | TOKEN_EXPIRED | INVALID_TOKEN | MISSING_HEADER
  | DEACTIVATED_USER | INVALID_CAPTCHA | INVALID_OTP_CODE | INVALID_PASSWORD
  | TOKEN_OTP_MUST_BE_ENABLED | TOKEN_NOT_FOUND | TOKEN_REVOKED
  | MULTIPLE_API_KEY | API_KEY_NULL | API_REQUEST_EXPIRED | API_SIGNATURE_NULL
  | API_KEY_INACTIVE | API_KEY_INVALID | API_KEY_EXPIRED | API_KEY_OUT_OF_SCOPE
  | API_SIGNATURE_INVALID | CODE_NOT_FOUND | CODE_USED | SAME_PASSWORD.

(** What a promise can be rejected with: [new Error(MSG)], the same with a
    [status] field set, a [TypeError] of the engine (a property read on
    [null]), or an error object of the [jsonwebtoken] package. *)
Inductive Error :=
  | new_Error (m : Message)
  | new_Error_status (m : Message) (status : Z)
  | TypeError
  | JsonWebTokenError (reason : string).

(** The argument of [ACCESS_DENIED]: a message, or the error object the
    [.catch] of the HMAC middleware hands over. *)
Inductive Denial :=
  | ACCESS_DENIED (m : Message)
  | ACCESS_DENIED_error (e : Error).

Inductive Promise (A : Type) :=
  | resolve (a : A)
  | reject (e : Error).
Arguments resolve {A} a.
Arguments reject {A} e.

Definition promise_then {A B} (f : A → Promise B) (p : Promise A) : Promise B :=
  match p with
  | resolve a => f a
  | reject e => reject e
  end.

#[global] Instance promise_bind : MBind Promise := @promise_then.
#[global] Instance promise_ret : MRet Promise := @resolve.

(** [all([p, q])] of bluebird, for two promises that are already settled:
    the pair of the values, or the first rejection. *)
Definition all2 {A B} (p : Promise A) (q : Promise B) : Promise (A * B) :=
  a ← p; b ← q; resolve (a, b).

(** ** Data *)

Record Subject := { sub_id : Z; sub_email : string }.

(** The claim set [issueToken] signs, [{ sub: { id, email }, scopes, ip, iss }]:
    what [jwt.verify] hands back for a token signed with [SECRET]. *)
Record DecodedToken := {
  sub : Subject;
  scopes : list string;
  ip : option string;
  iss : string
}.

(** A request body: absent, a string, or any other value ([RequestBody] is
    instantiated with the runtime's type of non-string values). *)
Inductive RequestBody (O : Type) :=
  | body_undefined
  | body_string (s : string)
  | body_value (o : O).
Arguments body_undefined {O}.
Arguments body_string {O} s.
Arguments body_value {O} o.

(** ** The runtime *)

Class Runtime := {
  (** [crypto.createHmac('sha256', key).update(msg).digest('hex')] *)
  hmac_sha256_hex : string → string → string;
  (** values other than strings and [undefined], and [JSON.stringify] on them *)
  JsValue : Type;
  JSON_stringify : JsValue → string;
  (** [jwt.verify(tokenString, secret)] at a given clock: the decoded claim
      set, or the package's error *)
  jwt_verify : string → string → Z → Promise DecodedToken;
  (** [jwt.decode(tokenString)]: the claim set a token carries, read without
      any verification; only statements use it *)
  jwt_decode : string → option DecodedToken;
  (** the HOTP code of a secret at a counter value (package [otp]) *)
  hotp : string → Z → string;
  (** ToNumber on a string, a number of seconds; [None] is NaN *)
  ToNumber : string → option Z
}.

(** The constants imported from the server's [constants] module and the
    kit configuration. *)
Record Config := {
  SECRET : string;
  ISSUER : string;
  BASE_SCOPES : list string;
  ROLES_USER : string;
  TOKEN_TYPES_HMAC : string;
  HMAC_TOKEN_EXPIRY : Z;
  api_name : string
}.

(** ** Strings and values of the engine *)

(** [!v] is false: the header or argument is present and not empty. *)
Definition truthy (v : option string) : bool :=
  match v with
  | Some s => negb (String.eqb s "")
  | None => false
  end.

(** String concatenation with a possibly [undefined] operand. *)
Definition to_String (v : option string) : string :=
  match v with
  | Some s => s
  | None => "undefined"
  end.

(** [s.indexOf(p) === 0] *)
Definition starts_with (p s : string) : bool := String.prefix p s.

(** [s.split(sep)] for a one-character separator. *)
Fixpoint split (sep : ascii) (s : string) : list string :=
  match s with
  | EmptyString => [EmptyString]
  | String c r =>
      if Ascii.eqb c sep then EmptyString :: split sep r
      else match split sep r with
           | h :: t => String c h :: t
           | [] => [String c EmptyString]
           end
  end.

(** lodash [intersection(a, b)]: the values of [a] that occur in [b], without
    repetition, in the order of [a]. *)
Definition intersection (a b : list string) : list string :=
  remove_dups (filter (λ x, x ∈ b) a).

(** [arr.includes(x)] on strings. *)
Definition includes (arr : list string) (x : string) : bool :=
  bool_decide (x ∈ arr).

(** lodash [has(object, key)] on a header bag. *)
Definition has (h : gmap string string) (k : string) : bool :=
  bool_decide (is_Some (h !! k)).

(** [n > v] for a number [n] and a header value [v]: [undefined] and strings
    that are not numbers convert to NaN, and every comparison with NaN is
    false. *)
Definition js_gt `{Runtime} (n : Z) (v : option string) : bool :=
  match v with
  | Some s => match ToNumber s with
              | Some x => x <? n
              | None => false
              end
  | None => false
  end.

(** [moment().unix()] *)
Definition unix (now : Z) : Z := now `div` 1000.

(** ** The store *)

Record User := {
  user_id : Z;
  user_email : string;
  otp_enabled : bool;
  password : string
}.

Record OtpCode := {
  otp_id : Z;
  otp_user_id : Z;
  otp_secret : string;
  otp_used : bool;
  otp_updated_at : Z
}.

Record Token := {
  tk_id : Z;
  tk_user_id : Z;
  tk_ip : option string;
  tk_key : string;
  tk_secret : string;
  tk_expiry : Z;
  tk_role : string;
  tk_type : string;
  tk_name : option string;
  tk_active : bool;
  tk_revoked : bool
}.

Record ResetPasswordCode := {
  rc_id : Z;
  rc_code : string;
  rc_user_id : Z;
  rc_used : bool
}.

Record Status := { api_key : string; api_secret : string }.

Record Db := {
  users : list User;
  otp_codes : list OtpCode;
  tokens : list Token;
  reset_password_codes : list ResetPasswordCode;
  status : option Status
}.

(** [dbQuery.findOne(table, { where })]: the first row the condition holds of. *)
Definition findOne {A} (where_ : A → bool) (table : list A) : option A :=
  List.find where_ table.

(** [findOne] with [order: [[column, 'DESC']]]: among the rows the condition
    holds of, one with the greatest value of the column (the earliest such
    row of the table). *)
Definition findOne_desc {A} (where_ : A → bool) (column : A → Z)
    (table : list A) : option A :=
  foldr (λ row best,
           match best with
           | Some b => if column b <=? column row then Some row else Some b
           | None => Some row
           end) None (List.filter where_ table).

(** [instance.update(values)] on the row [findOne] returned: the first row
    the condition holds of is replaced. *)
Fixpoint update_first {A} (where_ : A → bool) (f : A → A) (table : list A) : list A :=
  match table with
  | [] => []
  | row :: rest =>
      if where_ row then f row :: rest
      else row :: update_first where_ f rest
  end.

(** A request as the gate reads it. The header bag is always there (the
    guards [req.headers ? ... : undefined] take their first branch);
    [x-real-ip] and the socket's address are only logged and are left out;
    [swagger] is [req.swagger.operation['x-security-scopes']] when
    [req.swagger] is set. *)
Record Request `{Runtime} := {
  headers : gmap string string;
  swagger : option (list string);
  body : RequestBody JsValue;
  method : string;
  originalUrl : string
}.

(** What a middleware does to its caller: [req.auth = a], [cb(null)] or
    [cb()], [cb(new Error(...))], [req.res.status(403).json({ message })]. *)
Inductive ReqAuth :=
  | auth_token (d : DecodedToken)
  | auth_sub (s : Subject).

Inductive Effect :=
  | set_req_auth (a : ReqAuth)
  | cb_null
  | cb_Error (d : Denial)
  | res_status_json (code : Z) (d : Denial).

(** [p.field] read on a promise object itself and not on the value it
    settles to: a bluebird promise has no such property, the read gives
    [undefined] whatever the promise holds. *)
Definition promise_property {A B} (p : Promise A) (field : A → B) : option B := None.

Record KeySecret := { apiKey : string; apiSecret : string }.

Record NewKey := { nk_id : Z; nk_apiKey : string; nk_secret : string }.

Section Auth.
Context `{R : Runtime} (cfg : Config).

(** *** Signature engine *)

Definition calculateSignature (secret : option string) (verb path : string)
    (nonce : option string) (data : RequestBody JsValue) : string :=
  let secret := default "" secret in
  let data := match data with body_undefined => body_string "" | d => d end in
  let stringData :=
    match data with
    | body_string s => s
    | body_value o => JSON_stringify o
    | body_undefined => ""
    end in
  hmac_sha256_hex secret (((verb +:+ path) +:+ to_String nonce) +:+ stringData).

Definition checkHmacSignature (secret : option string) (req : Request) : bool :=
  let signature := headers req !! "api-signature" in
  let expires := headers req !! "api-expires" in
  let calculatedSignature :=
    calculateSignature secret (method req) (originalUrl req) expires (body req) in
  match signature with
  | Some s => String.eqb calculatedSignature s
  | None => false
  end.

(** *** OTP *)

(** Modelled from the spec: the [otp] package is not among the sources;
    [otp({ name, secret, epoch }).totp()] is the standard time-step
    computation, the HOTP code at the number of 30-second steps elapsed
    since [epoch] (in seconds). *)
Definition otp_totp (name secret : string) (epoch now : Z) : string :=
  hotp secret ((now - epoch * 1000) `div` (30 * 1000)).

(** The default [epoch = 0] is written out at the call. *)
Definition generateOtp (now : Z) (secret : string) (epoch : Z) : string :=
  otp_totp (api_name cfg) secret epoch now.

Definition verifyOtp (now : Z) (userSecret : string) (userDigits : option string) : bool :=
  let serverDigits :=
    [generateOtp now userSecret 30; generateOtp now userSecret 0;
     generateOtp now userSecret (-30)] in
  match userDigits with
  | Some d => includes serverDigits d
  | None => false
  end.

Definition hasUserOtpEnabled (db : Db) (id : Z) : Promise bool :=
  match findOne (λ u, user_id u =? id) (users db) with
  | Some user => resolve (otp_enabled user)
  | None => reject TypeError
  end.

Definition verifyUserOtpCode (now : Z) (db : Db) (user_id : Z)
    (otp_code : option string) : Promise bool :=
  match findOne_desc (λ c, otp_used c && (otp_user_id c =? user_id))
          otp_updated_at (otp_codes db) with
  | Some otpCode =>
      if verifyOtp now (otp_secret otpCode) otp_code then resolve true
      else reject (new_Error INVALID_OTP_CODE)
  | None => reject TypeError
  end.

Definition verifyOtpBeforeAction (now : Z) (db : Db) (user_id : Z)
    (otp_code : option string) : Promise bool :=
  otp_enabled ← hasUserOtpEnabled db user_id;
  if otp_enabled : bool then verifyUserOtpCode now db user_id otp_code
  else resolve true.

(** Modelled from the spec: [getUserByKitId] of [./user] is not among the
    sources; it is the store's find-one by primary key, giving the user or
    [null]. *)
Definition getUserByKitId (db : Db) (id : Z) : Promise (option User) :=
  resolve (findOne (λ u, user_id u =? id) (users db)).

Definition checkUserOtpActive (now : Z) (db : Db) (userId : Z)
    (otpCode : option string) : Promise unit :=
  '(user, validOtp) ← all2 (getUserByKitId db userId)
                          (verifyOtpBeforeAction now db userId otpCode);
  match user with
  | None => reject TypeError
  | Some user =>
      if negb (otp_enabled user) then reject (new_Error TOKEN_OTP_MUST_BE_ENABLED)
      else if negb validOtp then reject (new_Error INVALID_OTP_CODE)
      else resolve tt
  end.

(** *** API keys *)

(** [findOne('token', { where: { key, active: true }, include: user })]:
    the row and, joined to it, its owner (or [null]). *)
Definition findTokenByApiKey (db : Db) (apiKey : string)
    : Promise (option (Token * option User)) :=
  resolve
    (tk ← findOne (λ t, String.eqb (tk_key t) apiKey && Bool.eqb (tk_active t) true)
            (tokens db);
     Some (tk, findOne (λ u, user_id u =? tk_user_id tk) (users db))).

(** The identity [{ sub: { id: token.user.id, email: token.user.email } }]. *)
Definition token_identity (user : option User) : Promise Subject :=
  match user with
  | Some u => resolve {| sub_id := user_id u; sub_email := user_email u |}
  | None => reject TypeError
  end.

(** The object literal
    [{ 'api-signature': apiSignature, 'api-expires': apiExpires }]. *)
Definition signature_headers (apiSignature apiExpires : option string)
    : gmap string string :=
  let h := match apiSignature with
           | Some s => {[ "api-signature" := s ]}
           | None => ∅
           end in
  match apiExpires with
  | Some e => <[ "api-expires" := e ]> h
  | None => h
  end.

Definition getApiKeySecret (db : Db) : Promise KeySecret :=
  match status db with
  | Some status => resolve {| apiKey := api_key status; apiSecret := api_secret status |}
  | None => reject TypeError
  end.

Definition verifyNetworkHmacToken (now : Z) (db : Db) (req : Request) : Promise unit :=
  let apiKey := headers req !! "api-key" in
  let apiSignature := headers req !! "api-signature" in
  let apiExpires := headers req !! "api-expires" in
  let systemKeySecret := getApiKeySecret db in
  if negb (truthy apiKey) then reject (new_Error API_KEY_NULL)
  else if negb (truthy apiSignature) then reject (new_Error API_SIGNATURE_NULL)
  else if js_gt (unix now) apiExpires then reject (new_Error API_REQUEST_EXPIRED)
  else
    let isSignatureValid :=
      checkHmacSignature (promise_property systemKeySecret apiSecret) req in
    if negb isSignatureValid then reject (new_Error API_SIGNATURE_INVALID)
    else resolve tt.

(** [required] is the argument [scopes], [None] when it is left out and
    [BASE_SCOPES] takes its place. Calls to the logger are left out here and
    below. *)
Definition verifyHmacTokenPromise (now : Z) (db : Db)
    (apiKey apiSignature apiExpires : option string) (method originalUrl : string)
    (body : RequestBody JsValue) (required : option (list string)) : Promise Subject :=
  let scopes := default (BASE_SCOPES cfg) required in
  if negb (truthy apiKey) then reject (new_Error API_KEY_NULL)
  else if negb (truthy apiSignature) then reject (new_Error API_SIGNATURE_NULL)
  else if js_gt (unix now) apiExpires then reject (new_Error API_REQUEST_EXPIRED)
  else
    token ← findTokenByApiKey db (to_String apiKey);
    match token with
    | None => reject (new_Error API_KEY_INVALID)
    | Some (token, user) =>
        if negb (includes scopes (tk_type token)) then
          reject (new_Error API_KEY_OUT_OF_SCOPE)
        else if tk_expiry token <? now then reject (new_Error API_KEY_EXPIRED)
        else if negb (tk_active token) then reject (new_Error API_KEY_INACTIVE)
        else
          let isSignatureValid :=
            checkHmacSignature (Some (tk_secret token))
              {| body := body;
                 headers := signature_headers apiSignature apiExpires;
                 swagger := None;
                 method := method;
                 originalUrl := originalUrl |} in
          if negb isSignatureValid then reject (new_Error API_SIGNATURE_INVALID)
          else token_identity user
    end.

Definition sendError (isSocket : bool) (d : Denial) : list Effect :=
  if isSocket then [cb_Error d] else [res_status_json 403 d].

Definition verifyHmacTokenMiddleware (now : Z) (db : Db) (req : Request)
    (apiKey : option string) (isSocket : bool) : list Effect :=
  let endpointScopes := default (BASE_SCOPES cfg) (swagger req) in
  let apiSignature := headers req !! "api-signature" in
  let apiExpires := headers req !! "api-expires" in
  if has (headers req) "api-key" && has (headers req) "authorization" then
    sendError isSocket (ACCESS_DENIED MULTIPLE_API_KEY)
  else if has (headers req) "api-key" && negb (has (headers req) "authorization") then
    if negb (truthy apiKey) then sendError isSocket (ACCESS_DENIED API_KEY_NULL)
    else if js_gt (unix now) apiExpires then
      sendError isSocket (ACCESS_DENIED API_REQUEST_EXPIRED)
    else if negb (truthy apiSignature) then
      sendError isSocket (ACCESS_DENIED API_SIGNATURE_NULL)
    else
      match findTokenByApiKey db (to_String apiKey) with
      | resolve None => sendError isSocket (ACCESS_DENIED API_KEY_INVALID)
      | resolve (Some (token, user)) =>
          if negb (includes endpointScopes (tk_type token)) then
            sendError isSocket (ACCESS_DENIED API_KEY_OUT_OF_SCOPE)
          else if tk_expiry token <? now then
            sendError isSocket (ACCESS_DENIED API_KEY_EXPIRED)
          else if negb (tk_active token) then
            sendError isSocket (ACCESS_DENIED API_KEY_INACTIVE)
          else if negb (checkHmacSignature (Some (tk_secret token)) req) then
            sendError isSocket (ACCESS_DENIED API_SIGNATURE_INVALID)
          else
            match token_identity user with
            | resolve s => [set_req_auth (auth_sub s); cb_null]
            | reject err => sendError isSocket (ACCESS_DENIED_error err)
            end
      | reject err => sendError isSocket (ACCESS_DENIED_error err)
      end
  else [].

(** *** Bearer tokens *)

(** [jwt.verify(token.split(' ')[1], SECRET)]. *)
Definition verifyTokenString (now : Z) (token : string) : Promise DecodedToken :=
  match split " " token !! 1%nat with
  | Some tokenString => jwt_verify tokenString (SECRET cfg) now
  | None => reject (JsonWebTokenError "jwt must be provided")
  end.

(** [getFrozenUsers()[id]] is truthy. *)
Definition frozen (frozenUsers : gmap Z bool) (id : Z) : bool :=
  default false (frozenUsers !! id).

(** The argument [ip] is only logged and is left out; [frozenUsers] is what
    [getFrozenUsers()] returns. *)
Definition verifyBearerTokenPromise (now : Z) (frozenUsers : gmap Z bool)
    (token : option string) (required : option (list string)) : Promise DecodedToken :=
  let endpointScopes := default (BASE_SCOPES cfg) required in
  match token with
  | Some token =>
      if starts_with "Bearer " token then
        decodedToken ← verifyTokenString now token;
        if bool_decide (intersection (scopes decodedToken) endpointScopes = []) then
          reject (new_Error NOT_AUTHORIZED)
        else if negb (String.eqb (iss decodedToken) (ISSUER cfg)) then
          reject (new_Error TOKEN_EXPIRED)
        else if frozen frozenUsers (sub_id (sub decodedToken)) then
          reject (new_Error DEACTIVATED_USER)
        else resolve decodedToken
      else reject (new_Error MISSING_HEADER)
  | None => reject (new_Error MISSING_HEADER)
  end.

(** The middlewares return the effects they have on their caller, in order;
    the empty list when they return without any. *)
Definition verifyBearerTokenMiddleware (now : Z) (frozenUsers : gmap Z bool)
    (req : Request) (token : option string) (isSocket : bool) : list Effect :=
  if negb (has (headers req) "api-key") && negb (has (headers req) "authorization") then
    sendError isSocket (ACCESS_DENIED MISSING_HEADER)
  else if has (headers req) "api-key" && has (headers req) "authorization" then
    sendError isSocket (ACCESS_DENIED MULTIPLE_API_KEY)
  else if negb (has (headers req) "api-key") && has (headers req) "authorization" then
    let endpointScopes := default (BASE_SCOPES cfg) (swagger req) in
    match token with
    | Some token =>
        if starts_with "Bearer " token then
          match verifyTokenString now token with
          | resolve decodedToken =>
              if bool_decide (intersection (scopes decodedToken) endpointScopes = []) then
                sendError isSocket (ACCESS_DENIED NOT_AUTHORIZED)
              else if negb (String.eqb (iss decodedToken) (ISSUER cfg)) then
                sendError isSocket (ACCESS_DENIED TOKEN_EXPIRED)
              else if frozen frozenUsers (sub_id (sub decodedToken)) then
                sendError isSocket (ACCESS_DENIED DEACTIVATED_USER)
              else [set_req_auth (auth_token decodedToken); cb_null]
          | reject _ => sendError isSocket (ACCESS_DENIED INVALID_TOKEN)
          end
        else sendError isSocket (ACCESS_DENIED MISSING_HEADER)
    | None => sendError isSocket (ACCESS_DENIED MISSING_HEADER)
    end
  else [].

(** *** Creating an API key *)

(** The id the store gives a new row. *)
Definition next_id (table : list Token) : Z :=
  1 + foldr (λ t m, Z.max (tk_id t) m) 0 table.

(** [getModel('token').create({ ... })]; [revoked] takes the column's
    default. *)
Definition create_token (db : Db) (row : Token) : Db :=
  {| users := users db;
     otp_codes := otp_codes db;
     tokens := tokens db ++ [row];
     reset_password_codes := reset_password_codes db;
     status := status db |}.

(** [randomKey] and [randomSecret] are the two draws
    [crypto.randomBytes(20).toString('hex')] and
    [crypto.randomBytes(25).toString('hex')]. *)
Definition createUserKitHmacToken (now : Z) (randomKey randomSecret : string)
    (db : Db) (userId : Z) (otpCode : option string) (ip name : option string)
    : Promise NewKey * Db :=
  let key := randomKey in
  let secret := randomSecret in
  let expiry := now + HMAC_TOKEN_EXPIRY cfg in
  match checkUserOtpActive now db userId otpCode with
  | resolve _ =>
      let db' :=
        create_token db
          {| tk_id := next_id (tokens db);
             tk_user_id := userId;
             tk_ip := ip;
             tk_key := key;
             tk_secret := secret;
             tk_expiry := expiry;
             tk_role := ROLES_USER cfg;
             tk_type := TOKEN_TYPES_HMAC cfg;
             tk_name := name;
             tk_active := true;
             tk_revoked := false |} in
      (resolve {| nk_id := userId; nk_apiKey := key; nk_secret := secret |}, db')
  | reject e => (reject e, db)
  end.

(** *** Resetting a password *)

Definition is_letter (c : ascii) : bool :=
  let n := Z.of_nat (nat_of_ascii c) in
  ((65 <=? n) && (n <=? 90)) || ((97 <=? n) && (n <=? 122)).

Definition is_digit (c : ascii) : bool :=
  let n := Z.of_nat (nat_of_ascii c) in
  (48 <=? n) && (n <=? 57).

(** The characters [.] does not match, among those a [string] holds. *)
Definition is_line_terminator (c : ascii) : bool :=
  let n := Z.of_nat (nat_of_ascii c) in
  (n =? 10) || (n =? 13).

(** [(?=.*[class])] at the start of the input: a character of the class
    occurs before the first line terminator. *)
Fixpoint lookahead (class : ascii → bool) (s : string) : bool :=
  match s with
  | EmptyString => false
  | String c r =>
      if class c then true
      else if is_line_terminator c then false
      else lookahead class r
  end.

(** [^.{n,}$] : the whole input is at least [n] characters, none of them a
    line terminator. *)
Fixpoint all_dots (s : string) : bool :=
  match s with
  | EmptyString => true
  | String c r => negb (is_line_terminator c) && all_dots r
  end.

Definition isValidPassword (value : string) : bool :=
  lookahead is_letter value && lookahead is_digit value
  && all_dots value && (8 <=? Z.of_nat (String.length value)).

Definition getResetPasswordCode (db : Db) (code : string) : Promise ResetPasswordCode :=
  match findOne (λ c, String.eqb (rc_code c) code) (reset_password_codes db) with
  | Some code => resolve code
  | None => reject (new_Error_status CODE_NOT_FOUND 404)
  end.

Definition set_used (c : ResetPasswordCode) : ResetPasswordCode :=
  {| rc_id := rc_id c; rc_code := rc_code c; rc_user_id := rc_user_id c;
     rc_used := true |}.

Definition set_password (newPassword : string) (u : User) : User :=
  {| user_id := user_id u; user_email := user_email u;
     otp_enabled := otp_enabled u; password := newPassword |}.

Definition resetUserPassword (db : Db) (resetPasswordCode newPassword : string)
    : Promise User * Db :=
  if negb (isValidPassword newPassword) then (reject (new_Error INVALID_PASSWORD), db)
  else
    match getResetPasswordCode db resetPasswordCode with
    | reject e => (reject e, db)
    | resolve code =>
        if rc_used code then (reject (new_Error CODE_USED), db)
        else
          let db1 :=
            {| users := users db;
               otp_codes := otp_codes db;
               tokens := tokens db;
               reset_password_codes :=
                 update_first (λ c, String.eqb (rc_code c) resetPasswordCode)
                   set_used (reset_password_codes db);
               status := status db |} in
          match getUserByKitId db1 (rc_user_id code) with
          | resolve (Some user) =>
              let db2 :=
                {| users := update_first (λ u, user_id u =? rc_user_id code)
                              (set_password newPassword) (users db1);
                   otp_codes := otp_codes db1;
                   tokens := tokens db1;
                   reset_password_codes := reset_password_codes db1;
                   status := status db1 |} in
              (resolve (set_password newPassword user), db2)
          | resolve None => (reject TypeError, db1)
          | reject e => (reject e, db1)
          end
    end.

End Auth.


(** The bearer branch of the middleware is taken by a request with an
    [authorization] header and no [api-key] header. *)
Definition bearer_request `{Runtime} (req : Request) : Prop :=
  headers req !! "api-key" = None ∧ is_Some (headers req !! "authorization").

(** ** A runtime to evaluate with

    A small implementation of [Runtime] for the examples: MACs and one-time
    codes are symbolic terms, tokens are the entries of a table. *)
Module Demo.

Record SignedToken := {
  st_payload : DecodedToken;
  st_secret : string;
  st_exp : Z
}.

Definition alice : Subject := {| sub_id := 7; sub_email := "alice@example.com" |}.

Definition issued : list (string * SignedToken) :=
  [ ("alice.user",
     {| st_payload := {| sub := alice; scopes := ["user"]; ip := None; iss := "kit" |};
        st_secret := "jwt-secret"; st_exp := 2000000000 |});
    ("alice.forged",
     {| st_payload := {| sub := alice; scopes := ["user"]; ip := None; iss := "kit" |};
        st_secret := "guess"; st_exp := 2000000000 |});
    ("alice.foreign",
     {| st_payload := {| sub := alice; scopes := ["user"]; ip := None; iss := "other" |};
        st_secret := "jwt-secret"; st_exp := 2000000000 |}) ].

Definition lookup_token (tokenString : string) : option SignedToken :=
  snd <$> List.find (λ e, String.eqb (fst e) tokenString) issued.

Definition verify (tokenString secret : string) (now : Z) : Promise DecodedToken :=
  match lookup_token tokenString with
  | None => reject (JsonWebTokenError "jwt malformed")
  | Some t =>
      if negb (String.eqb (st_secret t) secret) then
        reject (JsonWebTokenError "invalid signature")
      else if st_exp t * 1000 <=? now then reject (JsonWebTokenError "jwt expired")
      else resolve (st_payload t)
  end.

Definition decode (tokenString : string) : option DecodedToken :=
  st_payload <$> lookup_token tokenString.

Fixpoint digits (acc : Z) (s : string) : option Z :=
  match s with
  | EmptyString => Some acc
  | String c r =>
      let n := Z.of_nat (nat_of_ascii c) in
      if (48 <=? n) && (n <=? 57) then digits (10 * acc + (n - 48)) r else None
  end.

Definition code (secret : string) (counter : Z) : string :=
  if counter <? 0 then secret +:+ "@-" +:+ pretty (Z.to_N (- counter))
  else secret +:+ "@" +:+ pretty (Z.to_N counter).

Definition runtime : Runtime :=
  {| hmac_sha256_hex k m := "mac(" +:+ k +:+ "," +:+ m +:+ ")";
     JsValue := unit;
     JSON_stringify _ := "{}";
     jwt_verify := verify;
     jwt_decode := decode;
     hotp := code;
     ToNumber := digits 0 |}.


Definition cfg : Config :=
  {| SECRET := "jwt-secret";
     ISSUER := "kit";
     BASE_SCOPES := ["user"];
     ROLES_USER := "user";
     TOKEN_TYPES_HMAC := "hmac";
     HMAC_TOKEN_EXPIRY := 31536000000;
     api_name := "kit" |}.

(** 2023-11-14T22:13:20Z *)
Definition now : Z := 1700000000000.

Definition request (h : list (string * string)) : @Request runtime :=
  {| headers := list_to_map h;
     swagger := None;
     body := body_undefined;
     method := "GET";
     originalUrl := "/v2/user" |}.

(** A store: Alice has not enabled OTP; her first key is revoked, her second
    is live; her reset code has been used. *)
Definition revoked_row : Token :=
  {| tk_id := 1; tk_user_id := 7; tk_ip := None; tk_key := "key-1";
     tk_secret := "secret-1"; tk_expiry := 2000000000000; tk_role := "user";
     tk_type := "user"; tk_name := None; tk_active := false; tk_revoked := true |}.

Definition live_row : Token :=
  {| tk_id := 2; tk_user_id := 7; tk_ip := None; tk_key := "key-2";
     tk_secret := "secret-2"; tk_expiry := 2000000000000; tk_role := "user";
     tk_type := "user"; tk_name := None; tk_active := true; tk_revoked := false |}.

Definition store : Db :=
  {| users := [ {| user_id := 7; user_email := "alice@example.com";
                   otp_enabled := false; password := "hash" |} ];
     otp_codes := [];
     tokens := [revoked_row; live_row];
     reset_password_codes :=
       [ {| rc_id := 1; rc_code := "c0de"; rc_user_id := 7; rc_used := true |} ];
     status := Some {| api_key := "system-key"; api_secret := "system-secret" |} |}.

(** The same store once Alice has enrolled with the secret [seed]. *)
Definition enrolled : Db :=
  {| users := [ {| user_id := 7; user_email := "alice@example.com";
                   otp_enabled := true; password := "hash" |} ];
     otp_codes := [ {| otp_id := 1; otp_user_id := 7; otp_secret := "seed";
                       otp_used := true; otp_updated_at := 1690000000000 |} ];
     tokens := tokens store;
     reset_password_codes := reset_password_codes store;
     status := status store |}.

End Demo.

(** ** The rest of the module: issuing, enrolment, listing, revoking *)

(** The role scopes of [ROLES]: what [scopes.concat(ROLES.X)] appends, one
    element for a string and the elements of an array. *)
Record Roles := {
  ROLES_ADMIN : list string;
  ROLES_SUPPORT : list string;
  ROLES_SUPERVISOR : list string;
  ROLES_KYC : list string;
  ROLES_TECH : list string
}.

(** What [issueToken] reads of [getKitSecrets()]: [admin_whitelist] (maybe
    [undefined]) and [security.token_time]. *)
Record KitSecrets := {
  admin_whitelist : option (list string);
  token_time : string
}.

(** The object [formatTokenObject] builds. *)
Record FormattedToken := {
  ft_id : Z;
  ft_name : option string;
  ft_apiKey : string;
  ft_secret : string;
  ft_active : bool;
  ft_revoked : bool;
  ft_expiry : Z;
  ft_created : Z
}.

Record TokenList := { count : Z; data : list FormattedToken }.

Definition with_users (db : Db) (us : list User) : Db :=
  {| users := us; otp_codes := otp_codes db; tokens := tokens db;
     reset_password_codes := reset_password_codes db; status := status db |}.

Definition with_otp_codes (db : Db) (cs : list OtpCode) : Db :=
  {| users := users db; otp_codes := cs; tokens := tokens db;
     reset_password_codes := reset_password_codes db; status := status db |}.

Definition with_reset_password_codes (db : Db) (cs : list ResetPasswordCode) : Db :=
  {| users := users db; otp_codes := otp_codes db; tokens := tokens db;
     reset_password_codes := cs; status := status db |}.

(** [otp.update({ used: true }, { fields: ['used'] })] *)
Definition set_otp_used (c : OtpCode) : OtpCode :=
  {| otp_id := otp_id c; otp_user_id := otp_user_id c; otp_secret := otp_secret c;
     otp_used := true; otp_updated_at := otp_updated_at c |}.

(** [user.update({ otp_enabled }, { fields: ['otp_enabled'] })] *)
Definition set_otp_enabled (enabled : bool) (u : User) : User :=
  {| user_id := user_id u; user_email := user_email u;
     otp_enabled := enabled; password := password u |}.

(** The text of a token has no blank in it. *)
Fixpoint no_space (s : string) : bool :=
  match s with
  | EmptyString => true
  | String c r => negb (Ascii.eqb c " ") && no_space r
  end.

(** A password of valid format, said directly: eight characters or more,
    none of them a line terminator, a letter and a digit among them. *)
Fixpoint string_exists (class : ascii → bool) (s : string) : bool :=
  match s with
  | EmptyString => false
  | String c r => class c || string_exists class r
  end.

Definition strong_enough (value : string) : bool :=
  (8 <=? Z.of_nat (String.length value))
  && negb (string_exists is_line_terminator value)
  && string_exists is_letter value
  && string_exists is_digit value.

(** The rows [findUserOtp] looks among: a user's secrets not yet used. *)
Definition pending_secret (user_id : Z) (c : OtpCode) : bool :=
  negb (otp_used c) && (otp_user_id c =? user_id).

Section Account.
Context `{R : Runtime} (cfg : Config).

(** [jwt.sign(claims, secret, { expiresIn })] at a given clock. *)
Variable jwt_sign : DecodedToken → string → string → Z → string.
(** [bcrypt.compare(input, hash)], settled. *)
Variable bcrypt_compare : string → string → bool.
(** The column [created_at] of a token row. *)
Variable created_at : Token → Z.
(** [token.update({ active: false, revoked: true }, ...)] on a row read with
    [raw: true]: what the store makes of it. *)
Variable raw_update : Db → Token → Promise Token * Db.

Variable roles : Roles.
Variable secrets : KitSecrets.

Definition userScopeIsValid (endpointScopes userScopes : list string) : bool :=
  if bool_decide (intersection endpointScopes userScopes = []) then false else true.

Definition userIsDeactivated (deactivatedUsers : gmap Z bool) (userId : Z) : bool :=
  if frozen deactivatedUsers userId then true else false.

Definition checkAdminIp (whiteListedIps : option (list string)) (ip : option string)
    : bool :=
  let whiteListedIps := default [] whiteListedIps in
  let ip := default "" ip in
  if bool_decide (length whiteListedIps = 0%nat) then true
  else includes whiteListedIps ip.

(** The scopes [issueToken] puts into the token. *)
Definition issued_scopes (ip : option string)
    (isAdmin isSupport isSupervisor isKYC isTech : bool) : list string :=
  let scopes := [] ++ BASE_SCOPES cfg in
  if checkAdminIp (admin_whitelist secrets) ip then
    let scopes := if isAdmin then scopes ++ ROLES_ADMIN roles else scopes in
    let scopes := if isSupport then scopes ++ ROLES_SUPPORT roles else scopes in
    let scopes := if isSupervisor then scopes ++ ROLES_SUPERVISOR roles else scopes in
    let scopes := if isKYC then scopes ++ ROLES_KYC roles else scopes in
    let scopes := if isTech then scopes ++ ROLES_TECH roles else scopes in
    scopes
  else scopes.

(** The claim set [issueToken] hands to [jwt.sign]. *)
Definition issued_claims (id : Z) (email : string) (ip : option string)
    (isAdmin isSupport isSupervisor isKYC isTech : bool) : DecodedToken :=
  {| sub := {| sub_id := id; sub_email := email |};
     scopes := issued_scopes ip isAdmin isSupport isSupervisor isKYC isTech;
     ip := ip;
     iss := ISSUER cfg |}.

Definition issueToken (now : Z) (id : Z) (email : string) (ip : option string)
    (isAdmin isSupport isSupervisor isKYC isTech : bool) : string :=
  jwt_sign (issued_claims id email ip isAdmin isSupport isSupervisor isKYC isTech)
    (SECRET cfg) (token_time secrets) now.

(** *** Enrolment *)

Definition findUserOtp (db : Db) (user_id : Z) : Promise (option OtpCode) :=
  resolve (findOne (λ c, negb (otp_used c) && (otp_user_id c =? user_id))
             (otp_codes db)).

(** [secret] is the draw of [generateOtpSecret()]; the store gives the row
    its id and stamps it, [used] takes the column's default. *)
Definition createOtp (now : Z) (secret : string) (db : Db) (user_id : Z)
    : Promise string * Db :=
  let row :=
    {| otp_id := 1 + foldr (λ c m, Z.max (otp_id c) m) 0 (otp_codes db);
       otp_user_id := user_id; otp_secret := secret; otp_used := false;
       otp_updated_at := now |} in
  (resolve (otp_secret row), with_otp_codes db (otp_codes db ++ [row])).

Definition updateUserOtpEnabled (db : Db) (id : Z) (otp_enabled : bool)
    : Promise User * Db :=
  match findOne (λ u, user_id u =? id) (users db) with
  | Some user =>
      (resolve (set_otp_enabled otp_enabled user),
       with_users db (update_first (λ u, user_id u =? id)
                        (set_otp_enabled otp_enabled) (users db)))
  | None => (reject TypeError, db)
  end.

(** The two writes run in one transaction: when the second is rejected the
    first is undone. *)
Definition setActiveUserOtp (db : Db) (user_id : Z) : Promise User * Db :=
  match findUserOtp db user_id with
  | resolve (Some otp) =>
      let db1 :=
        with_otp_codes db
          (update_first (λ c, negb (otp_used c) && (otp_user_id c =? user_id))
             set_otp_used (otp_codes db)) in
      match updateUserOtpEnabled db1 user_id true with
      | (resolve user, db2) => (resolve user, db2)
      | (reject e, _) => (reject e, db)
      end
  | resolve None => (reject TypeError, db)
  | reject e => (reject e, db)
  end.

(** *** Passwords *)

Definition validatePassword (userPassword inputPassword : string) : Promise bool :=
  resolve (bcrypt_compare inputPassword userPassword).

(** [uuid] is the draw of [uuid()]; the store gives the row its id, [used]
    takes the column's default. *)
Definition createResetPasswordCode (uuid : string) (db : Db) (userId : Z)
    : Promise string * Db :=
  match findOne (λ c, (rc_user_id c =? userId) && negb (rc_used c))
          (reset_password_codes db) with
  | Some code => (resolve (rc_code code), db)
  | None =>
      let code :=
        {| rc_id := 1 + foldr (λ c m, Z.max (rc_id c) m) 0 (reset_password_codes db);
           rc_code := uuid; rc_user_id := userId; rc_used := false |} in
      (resolve (rc_code code),
       with_reset_password_codes db (reset_password_codes db ++ [code]))
  end.

(** Modelled from the spec: [getUserByEmail] of [./user] is not among the
    sources; it is the store's find-one by email, giving the user or
    [null]. *)
Definition getUserByEmail (db : Db) (email : string) : Promise (option User) :=
  resolve (findOne (λ u, String.eqb (user_email u) email) (users db)).

Definition changeUserPassword (db : Db) (email oldPassword newPassword : string)
    : Promise User * Db :=
  if String.eqb oldPassword newPassword then (reject (new_Error SAME_PASSWORD), db)
  else if negb (isValidPassword newPassword) then
    (reject (new_Error INVALID_PASSWORD), db)
  else
    match getUserByEmail db email with
    | resolve (Some user) =>
        match validatePassword (password user) oldPassword with
        | resolve passwordIsValid =>
            if negb passwordIsValid then (reject (new_Error INVALID_PASSWORD), db)
            else
              (resolve (set_password newPassword user),
               with_users db
                 (update_first (λ u, String.eqb (user_email u) email)
                    (set_password newPassword) (users db)))
        | reject e => (reject e, db)
        end
    | resolve None => (reject TypeError, db)
    | reject e => (reject e, db)
    end.

Definition userHasOtpEnabled (db : Db) (userId : Z) : Promise bool :=
  user ← getUserByKitId db userId;
  match user with
  | Some user => resolve (otp_enabled user)
  | None => reject TypeError
  end.

(** *** Listing and revoking API keys *)

(** [token.substr(0, 3) + '********'], the token defaulting to [''] *)
Definition maskToken (token : option string) : string :=
  String.substring 0 3 (default "" token) +:+ "********".

Definition formatTokenObject (tokenData : Token) : FormattedToken :=
  {| ft_id := tk_id tokenData;
     ft_name := tk_name tokenData;
     ft_apiKey := tk_key tokenData;
     ft_secret := maskToken (Some (tk_secret tokenData));
     ft_active := tk_active tokenData;
     ft_revoked := tk_revoked tokenData;
     ft_expiry := tk_expiry tokenData;
     ft_created := created_at tokenData |}.

(** [order: [['created_at', 'DESC'], ['id', 'ASC']]] *)
Definition listed_before (a b : Token) : Prop :=
  created_at b < created_at a ∨ (created_at a = created_at b ∧ tk_id a ≤ tk_id b).

#[local] Instance listed_before_dec : RelDecision listed_before.
Proof. intros a b. unfold listed_before. apply _. Defined.

Definition getUserKitHmacTokens (db : Db) (userId : Z) : Promise TokenList :=
  let rows :=
    merge_sort listed_before
      (List.filter (λ t, (tk_user_id t =? userId)
                         && String.eqb (tk_role t) (TOKEN_TYPES_HMAC cfg))
         (tokens db)) in
  resolve {| count := Z.of_nat (length rows); data := formatTokenObject <$> rows |}.

Definition deleteUserKitHmacToken (now : Z) (db : Db) (userId : Z)
    (otpCode : option string) (tokenId : Z) : Promise FormattedToken * Db :=
  match checkUserOtpActive cfg now db userId otpCode with
  | resolve _ =>
      match findOne (λ t, (tk_id t =? tokenId) && (tk_user_id t =? userId))
              (tokens db) with
      | None => (reject (new_Error TOKEN_NOT_FOUND), db)
      | Some token =>
          if tk_revoked token then (reject (new_Error TOKEN_REVOKED), db)
          else
            let '(updated, db') := raw_update db token in
            (promise_then (λ t, resolve (formatTokenObject t)) updated, db')
      end
  | reject e => (reject e, db)
  end.

End Account.

(** Values for the parameters of the section above, to evaluate with. *)
Module DemoKit.

(** Signing names the table entry of the claim set. *)
Definition sign (d : DecodedToken) (secret expiresIn : string) (now : Z) : string :=
  if String.eqb (iss d) "kit" then "alice.user" else "alice.foreign".

Definition compare (input hash : string) : bool :=
  String.eqb ("bcrypt:" +:+ input) hash.

Definition created (t : Token) : Z := 1600000000000 + tk_id t.

(** A row read with [raw: true] is a plain object: [token.update] is not a
    function, the call is a [TypeError] and nothing is written. *)
Definition update (db : Db) (t : Token) : Promise Token * Db :=
  (reject TypeError, db).

Definition roles : Roles :=
  {| ROLES_ADMIN := ["admin"]; ROLES_SUPPORT := ["support"];
     ROLES_SUPERVISOR := ["supervisor"]; ROLES_KYC := ["kyc"];
     ROLES_TECH := ["tech"] |}.

Definition secrets : KitSecrets :=
  {| admin_whitelist := Some ["10.0.0.1"]; token_time := "24h" |}.

(** Alice with a password and a reset code that is still open. *)
Definition pending : Db :=
  {| users := [ {| user_id := 7; user_email := "alice@example.com";
                   otp_enabled := false; password := "bcrypt:old pass 1" |} ];
     otp_codes := [];
     tokens := tokens Demo.store;
     reset_password_codes :=
       [ {| rc_id := 1; rc_code := "c0de"; rc_user_id := 7; rc_used := true |};
         {| rc_id := 2; rc_code := "f00d"; rc_user_id := 7; rc_used := false |} ];
     status := status Demo.store |}.

End DemoKit.

(** ** Lemmas on the helpers *)

Lemma findOne_Some {A} (p : A → bool) (l : list A) (x : A) :
  findOne p l = Some x → x ∈ l ∧ p x = true.
Proof.
  unfold findOne. intros Hf. apply List.find_some in Hf as [Hin Hp].
  split; [by apply list_elem_of_In | done].
Qed.

Lemma findOne_None {A} (p : A → bool) (l : list A) :
  (∀ x, x ∈ l → p x = false) → findOne p l = None.
Proof.
  unfold findOne. induction l as [|a l IH]; intros Hall; [done|].
  simpl. rewrite (Hall a) by apply list_elem_of_here.
  apply IH. intros x Hx. apply Hall. by apply list_elem_of_further.
Qed.

Lemma has_true (h : gmap string string) (k : string) :
  has h k = true ↔ is_Some (h !! k).
Proof. unfold has. by rewrite bool_decide_eq_true. Qed.

Lemma has_false (h : gmap string string) (k : string) :
  has h k = false ↔ h !! k = None.
Proof.
  unfold has. rewrite bool_decide_eq_false, <- eq_None_not_Some. done.
Qed.

Lemma string_eqb_false (a b : string) : a ≠ b → String.eqb a b = false.
Proof. intros Hne. by apply String.eqb_neq. Qed.

Lemma string_app_cons (x : ascii) (a b : string) :
  String x a +:+ b = String x (a +:+ b).
Proof. reflexivity. Qed.

Lemma string_app_assoc (a b c : string) : (a +:+ b) +:+ c = a +:+ b +:+ c.
Proof.
  induction a as [|x a IH]; [reflexivity|].
  by rewrite !string_app_cons, IH.
Qed.

(** ** The gate: which path a request takes *)

Section Gate.
Context `{R : Runtime} (cfg : Config).

(** C5. A request that carries both an [api-key] and an [authorization]
    header is rejected with [MULTIPLE_API_KEY] by the bearer middleware and
    by the HMAC middleware, whatever the two headers, the token argument and
    the key argument hold. *)
Theorem both_headers_MULTIPLE_API_KEY (now : Z) (frozenUsers : gmap Z bool)
    (db : Db) (req : Request) (token apiKey : option string) (isSocket : bool) :
  is_Some (headers req !! "api-key") →
  is_Some (headers req !! "authorization") →
  verifyBearerTokenMiddleware cfg now frozenUsers req token isSocket
    = sendError isSocket (ACCESS_DENIED MULTIPLE_API_KEY)
  ∧ verifyHmacTokenMiddleware cfg now db req apiKey isSocket
    = sendError isSocket (ACCESS_DENIED MULTIPLE_API_KEY).
Proof.
  intros Hkey Hauth.
  apply has_true in Hkey. apply has_true in Hauth.
  unfold verifyBearerTokenMiddleware, verifyHmacTokenMiddleware.
  rewrite Hkey, Hauth. done.
Qed.

(** C10. On a request with an [api-key] header and no [authorization]
    header the bearer middleware does nothing: no callback, no response, no
    [req.auth]. *)
Theorem bearer_middleware_silent_on_api_key (now : Z) (frozenUsers : gmap Z bool)
    (req : Request) (token : option string) (isSocket : bool) :
  is_Some (headers req !! "api-key") →
  headers req !! "authorization" = None →
  verifyBearerTokenMiddleware cfg now frozenUsers req token isSocket = [].
Proof.
  intros Hkey Hauth.
  apply has_true in Hkey. apply has_false in Hauth.
  unfold verifyBearerTokenMiddleware.
  rewrite Hkey, Hauth. done.
Qed.

End Gate.

Section GateExamples.
#[local] Existing Instance Demo.runtime.

Lemma both_headers_MULTIPLE_API_KEY_witness :
  let req := Demo.request [("api-key", "not-a-key"); ("authorization", "Basic ???")] in
  let db := {| users := []; otp_codes := []; tokens := [];
               reset_password_codes := []; status := None |} in
  verifyBearerTokenMiddleware Demo.cfg Demo.now ∅ req (Some "Basic ???") false
    = [res_status_json 403 (ACCESS_DENIED MULTIPLE_API_KEY)]
  ∧ verifyHmacTokenMiddleware Demo.cfg Demo.now db req (Some "not-a-key") false
    = [res_status_json 403 (ACCESS_DENIED MULTIPLE_API_KEY)].
Proof.
  intros req db.
  apply (both_headers_MULTIPLE_API_KEY Demo.cfg Demo.now ∅ db req
           (Some "Basic ???") (Some "not-a-key") false).
  - exists "not-a-key". vm_compute. reflexivity.
  - exists "Basic ???". vm_compute. reflexivity.
Defined.

Lemma bearer_middleware_silent_on_api_key_witness :
  verifyBearerTokenMiddleware Demo.cfg Demo.now ∅
    (Demo.request [("api-key", "abc")]) None true = [].
Proof.
  apply (bearer_middleware_silent_on_api_key Demo.cfg Demo.now ∅
           (Demo.request [("api-key", "abc")]) None true).
  - exists "abc". vm_compute. reflexivity.
  - vm_compute. reflexivity.
Defined.

End GateExamples.

(** ** Bearer tokens *)

Section Bearer.
Context `{R : Runtime} (cfg : Config).

Lemma bearer_request_has (req : Request) :
  bearer_request req →
  has (headers req) "api-key" = false ∧ has (headers req) "authorization" = true.
Proof. intros [Hk Ha]. by rewrite has_false, has_true. Qed.

(** The middleware on the bearer branch, once the token has the prefix and
    [jwt.verify] has accepted it: the three checks on the claim set. *)
Lemma verifyBearerTokenMiddleware_verified (now : Z) (frozenUsers : gmap Z bool)
    (req : Request) (token : string) (isSocket : bool) (d : DecodedToken) :
  bearer_request req →
  starts_with "Bearer " token = true →
  verifyTokenString cfg now token = resolve d →
  verifyBearerTokenMiddleware cfg now frozenUsers req (Some token) isSocket =
    if bool_decide (intersection (scopes d) (default (BASE_SCOPES cfg) (swagger req)) = [])
    then sendError isSocket (ACCESS_DENIED NOT_AUTHORIZED)
    else if negb (String.eqb (iss d) (ISSUER cfg))
    then sendError isSocket (ACCESS_DENIED TOKEN_EXPIRED)
    else if frozen frozenUsers (sub_id (sub d))
    then sendError isSocket (ACCESS_DENIED DEACTIVATED_USER)
    else [set_req_auth (auth_token d); cb_null].
Proof.
  intros Hreq Hpre Hver. apply bearer_request_has in Hreq as [Hk Ha].
  unfold verifyBearerTokenMiddleware. by rewrite Hk, Ha, Hpre, Hver.
Qed.

Lemma verifyBearerTokenPromise_verified (now : Z) (frozenUsers : gmap Z bool)
    (token : string) (required : option (list string)) (d : DecodedToken) :
  starts_with "Bearer " token = true →
  verifyTokenString cfg now token = resolve d →
  verifyBearerTokenPromise cfg now frozenUsers (Some token) required =
    if bool_decide (intersection (scopes d) (default (BASE_SCOPES cfg) required) = [])
    then reject (new_Error NOT_AUTHORIZED)
    else if negb (String.eqb (iss d) (ISSUER cfg))
    then reject (new_Error TOKEN_EXPIRED)
    else if frozen frozenUsers (sub_id (sub d))
    then reject (new_Error DEACTIVATED_USER)
    else resolve d.
Proof.
  intros Hpre Hver. unfold verifyBearerTokenPromise. by rewrite Hpre, Hver.
Qed.

(** A token [jwt.verify] refuses: the middleware answers [INVALID_TOKEN],
    the promise is rejected with the package's own error; the scopes are
    never looked at. *)
Lemma bearer_unverified (now : Z) (frozenUsers : gmap Z bool) (req : Request)
    (token : string) (required : option (list string)) (isSocket : bool) (e : Error) :
  bearer_request req →
  starts_with "Bearer " token = true →
  verifyTokenString cfg now token = reject e →
  verifyBearerTokenMiddleware cfg now frozenUsers req (Some token) isSocket
    = sendError isSocket (ACCESS_DENIED INVALID_TOKEN)
  ∧ verifyBearerTokenPromise cfg now frozenUsers (Some token) required = reject e.
Proof.
  intros Hreq Hpre Hver. apply bearer_request_has in Hreq as [Hk Ha].
  unfold verifyBearerTokenMiddleware, verifyBearerTokenPromise.
  by rewrite Hk, Ha, Hpre, Hver.
Qed.

(** C2, amended. A bearer token with the [Bearer ] prefix that [jwt.verify]
    accepts and whose scopes share nothing with the required scopes is
    rejected with [NOT_AUTHORIZED], by the promise variant and by the
    middleware, whatever its issuer and subject. *)
Theorem verified_token_without_scope_NOT_AUTHORIZED (now : Z)
    (frozenUsers : gmap Z bool) (req : Request) (token : string)
    (required : option (list string)) (isSocket : bool) (d : DecodedToken) :
  starts_with "Bearer " token = true →
  verifyTokenString cfg now token = resolve d →
  (intersection (scopes d) (default (BASE_SCOPES cfg) required) = [] →
   verifyBearerTokenPromise cfg now frozenUsers (Some token) required
     = reject (new_Error NOT_AUTHORIZED))
  ∧ (bearer_request req →
     intersection (scopes d) (default (BASE_SCOPES cfg) (swagger req)) = [] →
     verifyBearerTokenMiddleware cfg now frozenUsers req (Some token) isSocket
       = sendError isSocket (ACCESS_DENIED NOT_AUTHORIZED)).
Proof.
  intros Hpre Hver. split.
  - intros Hempty.
    rewrite (verifyBearerTokenPromise_verified _ _ _ _ d) by done.
    by rewrite bool_decide_eq_true_2.
  - intros Hreq Hempty.
    rewrite (verifyBearerTokenMiddleware_verified _ _ _ _ _ d) by done.
    by rewrite bool_decide_eq_true_2.
Qed.

(** C6. A bearer token that [jwt.verify] accepts (signature and expiry) and
    whose scopes meet the required scopes, but whose [iss] is not the
    configured [ISSUER], is rejected with [TOKEN_EXPIRED]; the frozen-user
    check is not reached. *)
Theorem issuer_mismatch_TOKEN_EXPIRED (now : Z) (frozenUsers : gmap Z bool)
    (req : Request) (token : string) (required : option (list string))
    (isSocket : bool) (d : DecodedToken) :
  starts_with "Bearer " token = true →
  verifyTokenString cfg now token = resolve d →
  iss d ≠ ISSUER cfg →
  (intersection (scopes d) (default (BASE_SCOPES cfg) required) ≠ [] →
   verifyBearerTokenPromise cfg now frozenUsers (Some token) required
     = reject (new_Error TOKEN_EXPIRED))
  ∧ (bearer_request req →
     intersection (scopes d) (default (BASE_SCOPES cfg) (swagger req)) ≠ [] →
     verifyBearerTokenMiddleware cfg now frozenUsers req (Some token) isSocket
       = sendError isSocket (ACCESS_DENIED TOKEN_EXPIRED)).
Proof.
  intros Hpre Hver Hiss. apply string_eqb_false in Hiss. split.
  - intros Hmeet.
    rewrite (verifyBearerTokenPromise_verified _ _ _ _ d) by done.
    by rewrite bool_decide_eq_false_2, Hiss.
  - intros Hreq Hmeet.
    rewrite (verifyBearerTokenMiddleware_verified _ _ _ _ _ d) by done.
    by rewrite bool_decide_eq_false_2, Hiss.
Qed.

End Bearer.

Section BearerExamples.
#[local] Existing Instance Demo.runtime.

(** C2 as stated fails. The token [alice.forged] carries the scope [user],
    the endpoint requires [admin], and the token is signed with another
    secret: the promise is rejected with the package's
    [invalid signature] error and the middleware answers [INVALID_TOKEN];
    neither says [NOT_AUTHORIZED]. *)
Lemma forged_token_not_NOT_AUTHORIZED :
  let token := "Bearer alice.forged" in
  let req := Demo.request [("authorization", token)] in
  (∃ d, jwt_decode "alice.forged" = Some d
        ∧ intersection (scopes d) ["admin"] = [])
  ∧ verifyBearerTokenPromise Demo.cfg Demo.now ∅ (Some token) (Some ["admin"])
      = reject (JsonWebTokenError "invalid signature")
  ∧ verifyBearerTokenPromise Demo.cfg Demo.now ∅ (Some token) (Some ["admin"])
      ≠ reject (new_Error NOT_AUTHORIZED)
  ∧ verifyBearerTokenMiddleware Demo.cfg Demo.now ∅
      {| headers := headers req; swagger := Some ["admin"]; body := body req;
         method := method req; originalUrl := originalUrl req |}
      (Some token) false
      = [res_status_json 403 (ACCESS_DENIED INVALID_TOKEN)].
Proof.
  intros token req. split; [|split; [|split]].
  - eexists. split; [vm_compute; reflexivity | vm_compute; reflexivity].
  - vm_compute. reflexivity.
  - vm_compute. discriminate.
  - vm_compute. reflexivity.
Qed.

(** A token that passes every check. *)
Example bearer_token_verifies :
  verifyBearerTokenPromise Demo.cfg Demo.now ∅ (Some "Bearer alice.user") None
  = resolve {| sub := Demo.alice; scopes := ["user"]; ip := None; iss := "kit" |}.
Proof. vm_compute. reflexivity. Qed.

Lemma verified_token_without_scope_NOT_AUTHORIZED_witness :
  let token := "Bearer alice.user" in
  let req := Demo.request [("authorization", token)] in
  verifyBearerTokenPromise Demo.cfg Demo.now ∅ (Some token) (Some ["admin"])
    = reject (new_Error NOT_AUTHORIZED)
  ∧ verifyBearerTokenMiddleware Demo.cfg Demo.now ∅
      {| headers := headers req; swagger := Some ["admin"]; body := body req;
         method := method req; originalUrl := originalUrl req |}
      (Some token) true
    = [cb_Error (ACCESS_DENIED NOT_AUTHORIZED)].
Proof.
  intros token req.
  pose proof (verified_token_without_scope_NOT_AUTHORIZED Demo.cfg Demo.now ∅
    {| headers := headers req; swagger := Some ["admin"]; body := body req;
       method := method req; originalUrl := originalUrl req |}
    token (Some ["admin"]) true
    {| sub := Demo.alice; scopes := ["user"]; ip := None; iss := "kit" |}
    ltac:(vm_compute; reflexivity) ltac:(vm_compute; reflexivity)) as [Hp Hm].
  split.
  - apply Hp. vm_compute. reflexivity.
  - apply Hm.
    + split; [vm_compute; reflexivity | exists token; vm_compute; reflexivity].
    + vm_compute. reflexivity.
Defined.

Lemma issuer_mismatch_TOKEN_EXPIRED_witness :
  let token := "Bearer alice.foreign" in
  let req := Demo.request [("authorization", token)] in
  verifyBearerTokenPromise Demo.cfg Demo.now ∅ (Some token) None
    = reject (new_Error TOKEN_EXPIRED)
  ∧ verifyBearerTokenMiddleware Demo.cfg Demo.now ∅ req (Some token) false
    = [res_status_json 403 (ACCESS_DENIED TOKEN_EXPIRED)].
Proof.
  intros token req.
  pose proof (issuer_mismatch_TOKEN_EXPIRED Demo.cfg Demo.now ∅ req
    token None false
    {| sub := Demo.alice; scopes := ["user"]; ip := None; iss := "other" |}
    ltac:(vm_compute; reflexivity) ltac:(vm_compute; reflexivity)
    ltac:(vm_compute; discriminate)) as [Hp Hm].
  split.
  - apply Hp. vm_compute. discriminate.
  - apply Hm.
    + split; [vm_compute; reflexivity | exists token; vm_compute; reflexivity].
    + vm_compute. discriminate.
Defined.

End BearerExamples.

(** ** Signature engine *)

Section Signature.
Context `{R : Runtime}.

Lemma calculateSignature_undefined (secret : option string) (verb path : string)
    (nonce : option string) :
  calculateSignature secret verb path nonce body_undefined
  = calculateSignature secret verb path nonce (body_string "").
Proof. reflexivity. Qed.

Lemma checkHmacSignature_true (secret : option string) (req : Request) :
  checkHmacSignature secret req = true ↔
  headers req !! "api-signature"
  = Some (calculateSignature secret (method req) (originalUrl req)
            (headers req !! "api-expires") (body req)).
Proof.
  unfold checkHmacSignature.
  destruct (headers req !! "api-signature") as [s|]; [|done].
  rewrite String.eqb_eq. split; [by intros -> | by intros [= ->]].
Qed.

(** C7. [calculateSignature] is the hex HMAC-SHA256, keyed by the secret
    (the empty string when none is given), of [verb + path + nonce + s]:
    [s] is the data itself when it is a string, [JSON.stringify(data)] when
    it is another value, and data left out counts as the empty string. Equal
    arguments give equal signatures. [checkHmacSignature] is true exactly
    when the request's [api-signature] header is the signature computed from
    its method, path, [api-expires] header and body. *)
Theorem calculateSignature_is_hmac_of_concatenation (secret : option string)
    (verb path : string) (nonce : option string) :
  (∀ s : string,
     calculateSignature secret verb path nonce (body_string s)
     = hmac_sha256_hex (default "" secret) (verb +:+ path +:+ to_String nonce +:+ s))
  ∧ (∀ o : JsValue,
     calculateSignature secret verb path nonce (body_value o)
     = hmac_sha256_hex (default "" secret)
         (verb +:+ path +:+ to_String nonce +:+ JSON_stringify o))
  ∧ calculateSignature secret verb path nonce body_undefined
    = hmac_sha256_hex (default "" secret) (verb +:+ path +:+ to_String nonce +:+ "")
  ∧ (∀ secret' verb' path' nonce' data data',
       secret = secret' → verb = verb' → path = path' → nonce = nonce' →
       data = data' →
       calculateSignature secret verb path nonce data
       = calculateSignature secret' verb' path' nonce' data')
  ∧ (∀ req : Request,
       checkHmacSignature secret req = true ↔
       headers req !! "api-signature"
       = Some (calculateSignature secret (method req) (originalUrl req)
                 (headers req !! "api-expires") (body req))).
Proof.
  repeat split.
  - intros s. unfold calculateSignature. by rewrite !string_app_assoc.
  - intros o. unfold calculateSignature. by rewrite !string_app_assoc.
  - unfold calculateSignature. by rewrite !string_app_assoc.
  - by intros ? ? ? ? ? ? -> -> -> -> ->.
  - by apply checkHmacSignature_true.
  - by apply checkHmacSignature_true.
Qed.

End Signature.

(** ** One-time codes *)

Section Otp.
Context `{R : Runtime} (cfg : Config).




End Otp.

Section OtpExamples.
#[local] Existing Instance Demo.runtime.



End OtpExamples.

(** ** API keys *)

Section ApiKeys.
Context `{R : Runtime} (cfg : Config).

(** Under a key no active row is stored for, the lookup finds nothing. *)
Lemma findTokenByApiKey_inactive (db : Db) (apiKey : string) :
  (∀ t, t ∈ tokens db → tk_key t = apiKey → tk_active t = false) →
  findTokenByApiKey db apiKey = resolve None.
Proof.
  intros Hin. unfold findTokenByApiKey.
  rewrite findOne_None; [done|].
  intros t Ht. destruct (String.eqb_spec (tk_key t) apiKey) as [Hk|]; [|done].
  by rewrite (Hin t Ht Hk).
Qed.

(** The row the lookup returns is stored, active, and has the key asked for. *)
Lemma findTokenByApiKey_active (db : Db) (apiKey : string) (t : Token)
    (u : option User) :
  findTokenByApiKey db apiKey = resolve (Some (t, u)) →
  t ∈ tokens db ∧ tk_key t = apiKey ∧ tk_active t = true.
Proof.
  unfold findTokenByApiKey. intros [= Hf].
  destruct (findOne _ (tokens db)) as [t'|] eqn:Hfind; simplify_eq/=.
  apply findOne_Some in Hfind as [Hin Hp].
  apply andb_true_iff in Hp as [Hk Ha].
  apply String.eqb_eq in Hk. apply Bool.eqb_prop in Ha. done.
Qed.

(** Rows are told apart by their key. *)
Lemma unique_key (table : list Token) (r t : Token) :
  NoDup (tk_key <$> table) → r ∈ table → t ∈ table → tk_key t = tk_key r → t = r.
Proof.
  induction table as [|a table IH]; intros Hnd Hr Ht Hk.
  - by apply elem_of_nil in Hr.
  - rewrite fmap_cons in Hnd. apply NoDup_cons in Hnd as [Hfresh Hnd].
    apply elem_of_cons in Hr as [->|Hr]; apply elem_of_cons in Ht as [->|Ht].
    + done.
    + exfalso. apply Hfresh. rewrite <- Hk. by apply list_elem_of_fmap_2.
    + exfalso. apply Hfresh. rewrite Hk. by apply list_elem_of_fmap_2.
    + by apply IH.
Qed.

(** What the promise variant answers once the lookup has found nothing. *)
Lemma verifyHmacTokenPromise_not_found (now : Z) (db : Db)
    (apiKey apiSignature apiExpires : option string) (method originalUrl : string)
    (body : RequestBody JsValue) (required : option (list string)) :
  findTokenByApiKey db (to_String apiKey) = resolve None →
  verifyHmacTokenPromise cfg now db apiKey apiSignature apiExpires method
    originalUrl body required =
  if negb (truthy apiKey) then reject (new_Error API_KEY_NULL)
  else if negb (truthy apiSignature) then reject (new_Error API_SIGNATURE_NULL)
  else if js_gt (unix now) apiExpires then reject (new_Error API_REQUEST_EXPIRED)
  else reject (new_Error API_KEY_INVALID).
Proof.
  intros Hnone. unfold verifyHmacTokenPromise. rewrite Hnone. done.
Qed.

Lemma verifyHmacTokenMiddleware_not_found (now : Z) (db : Db) (req : Request)
    (apiKey : option string) (isSocket : bool) :
  findTokenByApiKey db (to_String apiKey) = resolve None →
  ∀ a, set_req_auth a ∉ verifyHmacTokenMiddleware cfg now db req apiKey isSocket.
Proof.
  intros Hnone a. unfold verifyHmacTokenMiddleware, sendError. rewrite Hnone.
  repeat match goal with
         | |- context [if ?b then _ else _] => destruct b
         end;
    intros Hin;
    repeat (apply elem_of_cons in Hin as [Hin|Hin]; [discriminate Hin|]);
    by apply elem_of_nil in Hin.
Qed.

(** C4. Let the store hold a row with [active = false] (a revoked row is
    one), keys being unique in the token table. Whatever signature and expiry
    come with that row's key, the promise variant never resolves and the
    middleware never sets [req.auth]; with an unexpired window and the
    signature computed from the row's own secret, the promise is rejected
    with [API_KEY_INACTIVE] or [API_KEY_INVALID]. *)
Theorem inactive_key_never_verifies (now : Z) (db : Db) (r : Token) :
  NoDup (tk_key <$> tokens db) →
  r ∈ tokens db →
  tk_active r = false →
  (∀ apiSignature apiExpires method originalUrl body required identity,
     verifyHmacTokenPromise cfg now db (Some (tk_key r)) apiSignature apiExpires
       method originalUrl body required ≠ resolve identity)
  ∧ (∀ req isSocket identity,
       set_req_auth identity
       ∉ verifyHmacTokenMiddleware cfg now db req (Some (tk_key r)) isSocket)
  ∧ (∀ apiExpires method originalUrl body required,
       tk_key r ≠ "" →
       js_gt (unix now) apiExpires = false →
       let apiSignature :=
         calculateSignature (Some (tk_secret r)) method originalUrl apiExpires body in
       apiSignature ≠ "" →
       let result :=
         verifyHmacTokenPromise cfg now db (Some (tk_key r)) (Some apiSignature)
           apiExpires method originalUrl body required in
       result = reject (new_Error API_KEY_INACTIVE)
       ∨ result = reject (new_Error API_KEY_INVALID)).
Proof.
  intros Hnd Hr Hinactive.
  assert (findTokenByApiKey db (tk_key r) = resolve None) as Hnone.
  { apply findTokenByApiKey_inactive. intros t Ht Hk.
    by rewrite (unique_key (tokens db) r t Hnd Hr Ht Hk). }
  split; [|split].
  - intros apiSignature apiExpires method originalUrl body required identity.
    rewrite verifyHmacTokenPromise_not_found by done.
    by repeat case_match.
  - intros req isSocket identity.
    by apply verifyHmacTokenMiddleware_not_found.
  - intros apiExpires method originalUrl body required Hkey Hwindow sig Hsig result.
    right. subst result.
    rewrite verifyHmacTokenPromise_not_found by done.
    simpl. rewrite (string_eqb_false _ _ Hkey), (string_eqb_false _ _ Hsig), Hwindow.
    done.
Qed.

(** The secret the network variant checks against is the empty string,
    whatever the status row holds: [systemKeySecret] is the promise, its
    [apiSecret] is [undefined], and [calculateSignature] falls back to its
    default. *)
Lemma verifyNetworkHmacToken_key (now : Z) (db : Db) (req : Request) :
  truthy (headers req !! "api-key") = true →
  truthy (headers req !! "api-signature") = true →
  js_gt (unix now) (headers req !! "api-expires") = false →
  verifyNetworkHmacToken now db req =
  if checkHmacSignature (Some "") req then resolve tt
  else reject (new_Error API_SIGNATURE_INVALID).
Proof.
  intros Hk Hs He. unfold verifyNetworkHmacToken. rewrite Hk, Hs, He. simpl.
  unfold promise_property.
  replace (checkHmacSignature None req) with (checkHmacSignature (Some "") req)
    by done.
  by destruct (checkHmacSignature (Some "") req).
Qed.

Lemma verifyNetworkHmacToken_any_store (now : Z) (db db' : Db) (req : Request) :
  verifyNetworkHmacToken now db req = verifyNetworkHmacToken now db' req.
Proof. reflexivity. Qed.

End ApiKeys.

Section ApiKeyExamples.
#[local] Existing Instance Demo.runtime.

Lemma inactive_key_never_verifies_witness :
  let apiSignature :=
    calculateSignature (Some "secret-1") "GET" "/v2/user" (Some "2000000000")
      body_undefined in
  let result :=
    verifyHmacTokenPromise Demo.cfg Demo.now Demo.store (Some "key-1") (Some apiSignature)
      (Some "2000000000") "GET" "/v2/user" body_undefined None in
  result = reject (new_Error API_KEY_INACTIVE)
  ∨ result = reject (new_Error API_KEY_INVALID).
Proof.
  pose proof (inactive_key_never_verifies Demo.cfg Demo.now Demo.store Demo.revoked_row) as H.
  apply H.
  - apply (bool_decide_unpack _). vm_compute. exact I.
  - apply list_elem_of_here.
  - reflexivity.
  - vm_compute. discriminate.
  - vm_compute. reflexivity.
  - vm_compute. discriminate.
Defined.

(** The live key of the same store, with the signature of its own secret,
    is let through: the gate does open. *)
Example live_key_verifies :
  let apiSignature :=
    calculateSignature (Some "secret-2") "GET" "/v2/user" (Some "2000000000")
      body_undefined in
  verifyHmacTokenPromise Demo.cfg Demo.now Demo.store (Some "key-2") (Some apiSignature)
    (Some "2000000000") "GET" "/v2/user" body_undefined None
  = resolve Demo.alice.
Proof. vm_compute. reflexivity. Qed.

(** C3, the failing input. The status row holds the secret [system-secret].
    A request signed with that secret is rejected with
    [API_SIGNATURE_INVALID]; the same request signed with the empty key is
    let through. *)
Theorem verifyNetworkHmacToken_checks_the_empty_key :
  let message := "GET" +:+ "/v2/network" +:+ "2000000000" +:+ "" in
  let signed (key : string) : Request :=
    {| headers := list_to_map [("api-key", "system-key");
                               ("api-signature", hmac_sha256_hex key message);
                               ("api-expires", "2000000000")];
       swagger := None; body := body_undefined;
       method := "GET"; originalUrl := "/v2/network" |} in
  getApiKeySecret Demo.store
    = resolve {| apiKey := "system-key"; apiSecret := "system-secret" |}
  ∧ checkHmacSignature (Some "system-secret") (signed "system-secret") = true
  ∧ verifyNetworkHmacToken Demo.now Demo.store (signed "system-secret")
    = reject (new_Error API_SIGNATURE_INVALID)
  ∧ checkHmacSignature (Some "system-secret") (signed "") = false
  ∧ verifyNetworkHmacToken Demo.now Demo.store (signed "") = resolve tt.
Proof. vm_compute. repeat split. Qed.

End ApiKeyExamples.

(** ** Creating an API key *)

Section CreateKey.
Context `{R : Runtime} (cfg : Config).

(** The lenient gate lets a user without OTP through, whatever the code. *)
Lemma verifyOtpBeforeAction_not_enrolled (now : Z) (db : Db) (userId : Z)
    (otpCode : option string) (user : User) :
  findOne (λ u, user_id u =? userId) (users db) = Some user →
  otp_enabled user = false →
  verifyOtpBeforeAction cfg now db userId otpCode = resolve true.
Proof.
  intros Hfind Hoff. unfold verifyOtpBeforeAction, hasUserOtpEnabled.
  rewrite Hfind, Hoff. reflexivity.
Qed.

(** The strict gate does not. *)
Lemma checkUserOtpActive_not_enrolled (now : Z) (db : Db) (userId : Z)
    (otpCode : option string) (user : User) :
  findOne (λ u, user_id u =? userId) (users db) = Some user →
  otp_enabled user = false →
  checkUserOtpActive cfg now db userId otpCode
  = reject (new_Error TOKEN_OTP_MUST_BE_ENABLED).
Proof.
  intros Hfind Hoff. unfold checkUserOtpActive.
  rewrite (verifyOtpBeforeAction_not_enrolled now db userId otpCode user) by done.
  unfold getUserByKitId. rewrite Hfind. simpl. by rewrite Hoff.
Qed.

(** C1, amended. For a user whose [otp_enabled] flag is false,
    [verifyOtpBeforeAction] passes with any code, but
    [createUserKitHmacToken] goes through [checkUserOtpActive]: it is
    rejected with [TOKEN_OTP_MUST_BE_ENABLED] and the Demo.store is left as it
    was, no token row is created. *)
Theorem createUserKitHmacToken_needs_otp_enabled (now : Z)
    (randomKey randomSecret : string) (db : Db) (userId : Z)
    (otpCode ip name : option string) (user : User) :
  findOne (λ u, user_id u =? userId) (users db) = Some user →
  otp_enabled user = false →
  verifyOtpBeforeAction cfg now db userId otpCode = resolve true
  ∧ createUserKitHmacToken cfg now randomKey randomSecret db userId otpCode ip name
    = (reject (new_Error TOKEN_OTP_MUST_BE_ENABLED), db).
Proof.
  intros Hfind Hoff. split.
  - by apply (verifyOtpBeforeAction_not_enrolled now db userId otpCode user).
  - unfold createUserKitHmacToken.
    by rewrite (checkUserOtpActive_not_enrolled now db userId otpCode user).
Qed.

End CreateKey.

(** ** Resetting a password *)

Section ResetPassword.

(** A code that is unique in its table designates its row. *)
Lemma findOne_code (table : list ResetPasswordCode) (row : ResetPasswordCode) :
  NoDup (rc_code <$> table) →
  row ∈ table →
  findOne (λ c, String.eqb (rc_code c) (rc_code row)) table = Some row.
Proof.
  unfold findOne.
  induction table as [|a table IH]; intros Hnd Hin.
  - by apply elem_of_nil in Hin.
  - rewrite fmap_cons in Hnd. apply NoDup_cons in Hnd as [Hfresh Hnd]. simpl.
    apply elem_of_cons in Hin as [->|Hin].
    + by rewrite String.eqb_refl.
    + destruct (String.eqb_spec (rc_code a) (rc_code row)) as [Heq|_].
      * exfalso. apply Hfresh. rewrite Heq. by apply list_elem_of_fmap_2.
      * by apply IH.
Qed.

(** [update_first] rewrites the row [findOne] designates, when the rewriting
    keeps the row under the condition. *)
Lemma findOne_update_first {A} (p : A → bool) (f : A → A) (table : list A) :
  (∀ x, p x = true → p (f x) = true) →
  findOne p (update_first p f table) = f <$> findOne p table.
Proof.
  intros Hkeep. unfold findOne.
  induction table as [|a table IH]; [done|]. simpl.
  destruct (p a) eqn:Hp; simpl.
  - by rewrite (Hkeep a Hp).
  - by rewrite Hp.
Qed.

(** C9. When the row of a reset code has [used = true] (codes being unique
    in their table), [resetUserPassword] with that code and a password of
    valid format is rejected with [CODE_USED], and the Demo.store is left as it
    was: neither the row nor any password changes. *)
Theorem used_code_CODE_USED (db : Db) (row : ResetPasswordCode)
    (newPassword : string) :
  NoDup (rc_code <$> reset_password_codes db) →
  row ∈ reset_password_codes db →
  rc_used row = true →
  isValidPassword newPassword = true →
  resetUserPassword db (rc_code row) newPassword
  = (reject (new_Error CODE_USED), db).
Proof.
  intros Hnd Hin Hused Hvalid.
  unfold resetUserPassword, getResetPasswordCode.
  rewrite Hvalid. simpl.
  rewrite (findOne_code _ row Hnd Hin). by rewrite Hused.
Qed.

(** A code that has reset a password once is refused from then on. *)
Lemma resetUserPassword_consumes (db db' : Db) (code newPassword again : string)
    (user : User) :
  resetUserPassword db code newPassword = (resolve user, db') →
  isValidPassword again = true →
  resetUserPassword db' code again = (reject (new_Error CODE_USED), db').
Proof.
  unfold resetUserPassword, getResetPasswordCode. intros Hfirst Hvalid.
  rewrite Hvalid. simpl.
  destruct (negb (isValidPassword newPassword)); [done|].
  destruct (findOne _ (reset_password_codes db)) as [row|] eqn:Hrow; [|done].
  destruct (rc_used row); [done|].
  unfold getUserByKitId in Hfirst. simpl in Hfirst.
  destruct (findOne _ (users db)) as [u|]; [|done].
  injection Hfirst as _ <-. simpl.
  rewrite findOne_update_first by done. by rewrite Hrow.
Qed.

End ResetPassword.

Section AccountExamples.
#[local] Existing Instance Demo.runtime.

(** C1 as stated fails. User 7 has [otp_enabled = false] and sends an empty
    code: no key comes back, the call is rejected with
    [TOKEN_OTP_MUST_BE_ENABLED] and the token table is what it was. *)
Lemma createUserKitHmacToken_rejects_not_enrolled :
  (∃ user, findOne (λ u, user_id u =? 7) (users Demo.store) = Some user
           ∧ otp_enabled user = false)
  ∧ createUserKitHmacToken Demo.cfg Demo.now "a1b2" "c3d4" Demo.store 7 (Some "") None
      (Some "bot")
    = (reject (new_Error TOKEN_OTP_MUST_BE_ENABLED), Demo.store).
Proof.
  split.
  - eexists. split; reflexivity.
  - vm_compute. reflexivity.
Qed.

(** With OTP enabled and the code of the current step, the key is created. *)
Example createUserKitHmacToken_enrolled :
  let result :=
    createUserKitHmacToken Demo.cfg Demo.now "a1b2" "c3d4" Demo.enrolled 7
      (Some (hotp "seed" 56666666)) None (Some "bot") in
  result.1 = resolve {| nk_id := 7; nk_apiKey := "a1b2"; nk_secret := "c3d4" |}
  ∧ (tk_key <$> tokens result.2) = ["key-1"; "key-2"; "a1b2"]
  ∧ createUserKitHmacToken Demo.cfg Demo.now "a1b2" "c3d4" Demo.enrolled 7
      (Some "000000") None (Some "bot")
    = (reject (new_Error INVALID_OTP_CODE), Demo.enrolled).
Proof. vm_compute. repeat split. Qed.

Lemma createUserKitHmacToken_needs_otp_enabled_witness :
  verifyOtpBeforeAction Demo.cfg Demo.now Demo.store 7 (Some "123456") = resolve true
  ∧ createUserKitHmacToken Demo.cfg Demo.now "a1b2" "c3d4" Demo.store 7 (Some "123456")
      None None
    = (reject (new_Error TOKEN_OTP_MUST_BE_ENABLED), Demo.store).
Proof.
  apply (createUserKitHmacToken_needs_otp_enabled Demo.cfg Demo.now "a1b2" "c3d4"
           Demo.store 7 (Some "123456") None None
           {| user_id := 7; user_email := "alice@example.com";
              otp_enabled := false; password := "hash" |}).
  - reflexivity.
  - reflexivity.
Defined.

Lemma used_code_CODE_USED_witness :
  resetUserPassword Demo.store "c0de" "correct horse 1"
  = (reject (new_Error CODE_USED), Demo.store).
Proof.
  apply (used_code_CODE_USED Demo.store
           {| rc_id := 1; rc_code := "c0de"; rc_user_id := 7; rc_used := true |}
           "correct horse 1").
  - apply NoDup_singleton.
  - apply list_elem_of_here.
  - reflexivity.
  - vm_compute. reflexivity.
Defined.

End AccountExamples.

(** ** More on bearer tokens *)

Lemma elem_of_intersection (a b : list string) (x : string) :
  x ∈ intersection a b ↔ x ∈ a ∧ x ∈ b.
Proof.
  unfold intersection. rewrite elem_of_remove_dups, list_elem_of_filter. tauto.
Qed.

Lemma intersection_nil (a b : list string) :
  intersection a b = [] ↔ ∀ x, x ∈ a → x ∉ b.
Proof.
  split.
  - intros Hnil x Ha Hb.
    assert (x ∈ intersection a b) as Hin by (by apply elem_of_intersection).
    rewrite Hnil in Hin. by apply elem_of_nil in Hin.
  - intros Hdisj. destruct (intersection a b) as [|x l] eqn:Hi; [done|].
    assert (x ∈ intersection a b) as Hin by (rewrite Hi; apply list_elem_of_here).
    apply elem_of_intersection in Hin as [Ha Hb]. by destruct (Hdisj x Ha).
Qed.

Lemma split_no_sep (s : string) : no_space s = true → split " " s = [s].
Proof.
  induction s as [|c s IH]; [done|]. simpl.
  intros [Hc Hs]%andb_true_iff. apply negb_true_iff in Hc.
  by rewrite Hc, (IH Hs).
Qed.

Lemma split_cons_sep (a rest : string) :
  no_space a = true → split " " (a +:+ String " " rest) = a :: split " " rest.
Proof.
  induction a as [|c a IH]; [done|].
  rewrite string_app_cons. simpl.
  intros [Hc Ha]%andb_true_iff. apply negb_true_iff in Hc.
  by rewrite Hc, (IH Ha).
Qed.

Lemma split_nonempty (s : string) : split " " s ≠ [].
Proof. induction s as [|c s IH]; simpl; [done|]. by repeat case_match. Qed.

Section BearerMore.
Context `{R : Runtime} (cfg : Config).

Lemma verifyTokenString_word (now : Z) (tokenString : string) :
  no_space tokenString = true →
  verifyTokenString cfg now ("Bearer " +:+ tokenString)
  = jwt_verify tokenString (SECRET cfg) now.
Proof.
  intros Hns. unfold verifyTokenString.
  change ("Bearer " +:+ tokenString) with ("Bearer" +:+ String " " tokenString).
  rewrite split_cons_sep by done. by rewrite split_no_sep.
Qed.

(** X3. After the prefix [Bearer ] the token that is verified is the text up
    to the next blank; whatever follows that blank is not looked at. *)
Theorem verifyTokenString_reads_second_word (now : Z) (tokenString rest : string) :
  no_space tokenString = true →
  verifyTokenString cfg now ("Bearer " +:+ tokenString)
    = jwt_verify tokenString (SECRET cfg) now
  ∧ verifyTokenString cfg now ("Bearer " +:+ tokenString +:+ " " +:+ rest)
    = jwt_verify tokenString (SECRET cfg) now.
Proof.
  intros Hns. split; [by apply verifyTokenString_word|].
  unfold verifyTokenString.
  change ("Bearer " +:+ tokenString +:+ " " +:+ rest)
    with ("Bearer" +:+ String " " (tokenString +:+ String " " rest)).
  rewrite split_cons_sep by done. by rewrite split_cons_sep.
Qed.

Lemma frozen_false (frozenUsers : gmap Z bool) (id : Z) :
  frozen frozenUsers id = false ↔ frozenUsers !! id ≠ Some true.
Proof. unfold frozen. destruct (frozenUsers !! id) as [[]|]; naive_solver. Qed.

Lemma verifyBearerTokenPromise_resolve (now : Z) (frozenUsers : gmap Z bool)
    (t : string) (required : option (list string)) (d : DecodedToken) :
  starts_with "Bearer " t = true →
  verifyTokenString cfg now t = resolve d →
  (∃ s, s ∈ scopes d ∧ s ∈ default (BASE_SCOPES cfg) required) →
  iss d = ISSUER cfg →
  frozenUsers !! sub_id (sub d) ≠ Some true →
  verifyBearerTokenPromise cfg now frozenUsers (Some t) required = resolve d.
Proof.
  intros Hpre Hver (s & Ha & Hb) Hiss Hf.
  rewrite (verifyBearerTokenPromise_verified cfg now frozenUsers t required d)
    by done.
  rewrite bool_decide_eq_false_2.
  - rewrite Hiss, String.eqb_refl. simpl. by rewrite (proj2 (frozen_false _ _) Hf).
  - intros Hnil. by apply (proj1 (intersection_nil _ _) Hnil s Ha).
Qed.

(** X1. The promise variant resolves, and then with the very claim set
    [jwt.verify] decoded, exactly when the token has the prefix, is
    verified, shares a scope with the required ones, names the configured
    issuer, and its subject is not frozen. *)
Theorem verifyBearerTokenPromise_resolves_iff (now : Z) (frozenUsers : gmap Z bool)
    (token : option string) (required : option (list string)) (d : DecodedToken) :
  verifyBearerTokenPromise cfg now frozenUsers token required = resolve d ↔
  ∃ t, token = Some t
       ∧ starts_with "Bearer " t = true
       ∧ verifyTokenString cfg now t = resolve d
       ∧ (∃ s, s ∈ scopes d ∧ s ∈ default (BASE_SCOPES cfg) required)
       ∧ iss d = ISSUER cfg
       ∧ frozenUsers !! sub_id (sub d) ≠ Some true.
Proof.
  split.
  - unfold verifyBearerTokenPromise.
    destruct token as [t|]; [|done].
    destruct (starts_with "Bearer " t) eqn:Hpre; [|done].
    destruct (verifyTokenString cfg now t) as [d'|e] eqn:Hver; [|done]. simpl.
    case_bool_decide as Hi; [done|].
    destruct (String.eqb_spec (iss d') (ISSUER cfg)) as [Hiss|]; [|done]. simpl.
    destruct (frozen frozenUsers (sub_id (sub d'))) eqn:Hf; [done|].
    intros [= <-]. exists t. repeat split; try done.
    + destruct (intersection _ _) as [|x l] eqn:Hmeet; [done|].
      exists x. apply elem_of_intersection. rewrite Hmeet. apply list_elem_of_here.
    + by apply frozen_false.
  - intros (t & -> & Hpre & Hver & Hs & Hiss & Hf).
    by apply verifyBearerTokenPromise_resolve.
Qed.

(** X2. On a request that takes the bearer branch, the middleware sets
    [req.auth] to a claim set and calls back without error exactly when the
    promise variant, given the endpoint's scopes, resolves with that claim
    set. *)
Theorem bearer_middleware_agrees_with_promise (now : Z) (frozenUsers : gmap Z bool)
    (req : Request) (token : option string) (isSocket : bool) (d : DecodedToken) :
  bearer_request req →
  verifyBearerTokenMiddleware cfg now frozenUsers req token isSocket
    = [set_req_auth (auth_token d); cb_null]
  ↔ verifyBearerTokenPromise cfg now frozenUsers token (swagger req) = resolve d.
Proof.
  intros Hreq. apply bearer_request_has in Hreq as [Hk Ha].
  unfold verifyBearerTokenMiddleware, verifyBearerTokenPromise, sendError.
  rewrite Hk, Ha. simpl.
  destruct token as [t|]; [|by destruct isSocket].
  destruct (starts_with "Bearer " t); [|by destruct isSocket].
  destruct (verifyTokenString cfg now t) as [d'|e]; simpl; [|by destruct isSocket].
  repeat case_match; destruct isSocket; naive_solver.
Qed.

(** X4. On every request but the one with an [api-key] header and no
    [authorization] header, the bearer middleware gives exactly one answer:
    one denial, or [req.auth] followed by the callback. *)
Theorem bearer_middleware_answers_once (now : Z) (frozenUsers : gmap Z bool)
    (req : Request) (token : option string) (isSocket : bool) :
  ¬ (is_Some (headers req !! "api-key") ∧ headers req !! "authorization" = None) →
  (∃ m, verifyBearerTokenMiddleware cfg now frozenUsers req token isSocket
        = sendError isSocket (ACCESS_DENIED m))
  ∨ (∃ d, verifyBearerTokenMiddleware cfg now frozenUsers req token isSocket
          = [set_req_auth (auth_token d); cb_null]).
Proof.
  intros Hnot. unfold verifyBearerTokenMiddleware.
  destruct (has (headers req) "api-key") eqn:Hk;
    destruct (has (headers req) "authorization") eqn:Ha; simpl.
  - left. by eexists.
  - exfalso. apply Hnot. by rewrite <- has_true, <- has_false.
  - destruct token as [t|]; [|left; by eexists].
    destruct (starts_with "Bearer " t); [|left; by eexists].
    destruct (verifyTokenString cfg now t) as [d'|e]; [|left; by eexists].
    repeat case_match; (left; by eexists) || (right; by eexists).
  - left. by eexists.
Qed.

End BearerMore.

(** ** Issuing tokens *)

Section Issue.
Context `{R : Runtime} (cfg : Config).
Variable jwt_sign : DecodedToken → string → string → Z → string.
Variable roles : Roles.
Variable secrets : KitSecrets.

Lemma issued_scopes_base (ip : option string)
    (isAdmin isSupport isSupervisor isKYC isTech : bool) :
  ∃ more, issued_scopes cfg roles secrets ip isAdmin isSupport isSupervisor isKYC isTech
          = BASE_SCOPES cfg ++ more.
Proof.
  unfold issued_scopes. simpl.
  destruct (checkAdminIp _ _); [|exists []; by rewrite app_nil_r].
  exists ((if isAdmin then ROLES_ADMIN roles else [])
          ++ (if isSupport then ROLES_SUPPORT roles else [])
          ++ (if isSupervisor then ROLES_SUPERVISOR roles else [])
          ++ (if isKYC then ROLES_KYC roles else [])
          ++ (if isTech then ROLES_TECH roles else [])).
  destruct isAdmin, isSupport, isSupervisor, isKYC, isTech;
    by rewrite ?app_nil_r, <- ?app_assoc.
Qed.

(** X5. The scopes of an issued token start with the base scopes, and every
    scope in them is a base scope or a scope of a role whose flag was set:
    no flag, no role scope. *)
Theorem issued_scopes_sound (ip : option string)
    (isAdmin isSupport isSupervisor isKYC isTech : bool) :
  let issued :=
    issued_scopes cfg roles secrets ip isAdmin isSupport isSupervisor isKYC isTech in
  BASE_SCOPES cfg `prefix_of` issued
  ∧ ∀ s, s ∈ issued →
      s ∈ BASE_SCOPES cfg
      ∨ (isAdmin = true ∧ s ∈ ROLES_ADMIN roles)
      ∨ (isSupport = true ∧ s ∈ ROLES_SUPPORT roles)
      ∨ (isSupervisor = true ∧ s ∈ ROLES_SUPERVISOR roles)
      ∨ (isKYC = true ∧ s ∈ ROLES_KYC roles)
      ∨ (isTech = true ∧ s ∈ ROLES_TECH roles).
Proof.
  intros issued. split.
  - destruct (issued_scopes_base ip isAdmin isSupport isSupervisor isKYC isTech)
      as [more Hmore].
    subst issued. rewrite Hmore. by apply prefix_app_r.
  - subst issued. unfold issued_scopes. simpl. intros s.
    destruct (checkAdminIp _ _); [|tauto].
    destruct isAdmin, isSupport, isSupervisor, isKYC, isTech;
      rewrite ?elem_of_app; intuition.
Qed.

(** X6. With a non-empty allowlist that does not hold the caller's address
    (no address counting as the empty string), the token gets the base
    scopes and nothing else, whatever role flags are set. *)
Theorem issued_scopes_off_allowlist (allowlist : list string) (ip : option string)
    (isAdmin isSupport isSupervisor isKYC isTech : bool) :
  admin_whitelist secrets = Some allowlist →
  allowlist ≠ [] →
  default "" ip ∉ allowlist →
  issued_scopes cfg roles secrets ip isAdmin isSupport isSupervisor isKYC isTech
  = BASE_SCOPES cfg.
Proof.
  intros Hlist Hne Hout. unfold issued_scopes, checkAdminIp, includes.
  rewrite Hlist. simpl.
  rewrite bool_decide_eq_false_2 by (by destruct allowlist).
  by rewrite bool_decide_eq_false_2.
Qed.

(** X7. A token [issueToken] has made, sent back as [Bearer <token>] to an
    endpoint that asks for the base scopes, is accepted with the claim set
    it was issued with, whatever role flags were set: provided the base
    scopes are not empty, the token's text has no blank, [jwt.verify] still
    accepts it, and the subject is not frozen. *)
Theorem issueToken_then_verify (issued now : Z) (frozenUsers : gmap Z bool)
    (id : Z) (email : string) (ip : option string)
    (isAdmin isSupport isSupervisor isKYC isTech : bool) :
  let claims :=
    issued_claims cfg roles secrets id email ip isAdmin isSupport isSupervisor
      isKYC isTech in
  let token :=
    issueToken cfg jwt_sign roles secrets issued id email ip isAdmin isSupport
      isSupervisor isKYC isTech in
  BASE_SCOPES cfg ≠ [] →
  no_space token = true →
  jwt_verify token (SECRET cfg) now = resolve claims →
  frozenUsers !! id ≠ Some true →
  verifyBearerTokenPromise cfg now frozenUsers (Some ("Bearer " +:+ token)) None
  = resolve claims.
Proof.
  intros claims token Hbase Hns Hver Hfrozen.
  apply verifyBearerTokenPromise_resolve; try done.
  - by destruct token.
  - by rewrite (verifyTokenString_word cfg now token Hns).
  - destruct (BASE_SCOPES cfg) as [|s base] eqn:Hb; [done|].
    exists s. split; [|simpl; apply list_elem_of_here].
    destruct (issued_scopes_base ip isAdmin isSupport isSupervisor isKYC isTech)
      as [more Hmore].
    subst claims. simpl. rewrite Hmore, Hb. apply list_elem_of_here.
Qed.

End Issue.

Lemma intersection_nonempty (a b : list string) :
  intersection a b ≠ [] ↔ ∃ s, s ∈ a ∧ s ∈ b.
Proof.
  split.
  - intros Hne. destruct (intersection a b) as [|x l] eqn:Hi; [done|].
    exists x. apply elem_of_intersection. rewrite Hi. apply list_elem_of_here.
  - intros (s & Ha & Hb) Hnil. by apply (proj1 (intersection_nil _ _) Hnil s Ha).
Qed.

(** X8. [userScopeIsValid] is true exactly when the two lists share a scope;
    the order of its two arguments does not matter. *)
Theorem userScopeIsValid_common_scope (endpointScopes userScopes : list string) :
  (userScopeIsValid endpointScopes userScopes = true
   ↔ ∃ s, s ∈ endpointScopes ∧ s ∈ userScopes)
  ∧ userScopeIsValid endpointScopes userScopes
    = userScopeIsValid userScopes endpointScopes.
Proof.
  assert (∀ a b, userScopeIsValid a b = true ↔ ∃ s, s ∈ a ∧ s ∈ b) as Hiff.
  { intros a b. unfold userScopeIsValid. rewrite <- intersection_nonempty.
    case_bool_decide; split; intros; done. }
  split; [apply Hiff|].
  destruct (userScopeIsValid userScopes endpointScopes) eqn:Hsym.
  - apply Hiff. apply Hiff in Hsym as (s & ? & ?). by exists s.
  - destruct (userScopeIsValid endpointScopes userScopes) eqn:Hdir; [|done].
    apply Hiff in Hdir as (s & ? & ?).
    assert (userScopeIsValid userScopes endpointScopes = true) as Htrue
      by (apply Hiff; by exists s).
    by rewrite Hsym in Htrue.
Qed.

(** ** More on API keys *)

Section ApiKeysMore.
Context `{R : Runtime} (cfg : Config).

Lemma signature_headers_lookup (apiSignature apiExpires : option string) :
  signature_headers apiSignature apiExpires !! "api-signature" = apiSignature
  ∧ signature_headers apiSignature apiExpires !! "api-expires" = apiExpires.
Proof.
  unfold signature_headers.
  destruct apiSignature as [s|], apiExpires as [e|]; split;
    by simplify_map_eq.
Qed.

(** [checkHmacSignature] reads its request through the two headers, the
    method, the path and the body. *)
Lemma checkHmacSignature_ext (secret : option string) (req req' : Request) :
  headers req !! "api-signature" = headers req' !! "api-signature" →
  headers req !! "api-expires" = headers req' !! "api-expires" →
  method req = method req' →
  originalUrl req = originalUrl req' →
  body req = body req' →
  checkHmacSignature secret req = checkHmacSignature secret req'.
Proof.
  intros Hs He Hm Hu Hb. unfold checkHmacSignature.
  by rewrite Hs, He, Hm, Hu, Hb.
Qed.

Lemma checkHmacSignature_arguments (secret : option string)
    (apiSignature apiExpires : option string) (method originalUrl : string)
    (body : RequestBody JsValue) (sw : option (list string)) :
  checkHmacSignature secret
    {| body := body; headers := signature_headers apiSignature apiExpires;
       swagger := sw; method := method; originalUrl := originalUrl |} = true
  ↔ apiSignature
    = Some (calculateSignature secret method originalUrl apiExpires body).
Proof.
  rewrite checkHmacSignature_true. simpl.
  by destruct (signature_headers_lookup apiSignature apiExpires) as [-> ->].
Qed.

Lemma verifyHmacTokenPromise_resolve (now : Z) (db : Db)
    (apiKey apiSignature apiExpires : option string) (method originalUrl : string)
    (body : RequestBody JsValue) (required : option (list string)) (s : Subject) :
  verifyHmacTokenPromise cfg now db apiKey apiSignature apiExpires method
    originalUrl body required = resolve s ↔
  truthy apiKey = true
  ∧ truthy apiSignature = true
  ∧ js_gt (unix now) apiExpires = false
  ∧ ∃ token user,
      findTokenByApiKey db (to_String apiKey) = resolve (Some (token, Some user))
      ∧ tk_type token ∈ default (BASE_SCOPES cfg) required
      ∧ now ≤ tk_expiry token
      ∧ tk_active token = true
      ∧ apiSignature
        = Some (calculateSignature (Some (tk_secret token)) method originalUrl
                  apiExpires body)
      ∧ s = {| sub_id := user_id user; sub_email := user_email user |}.
Proof.
  unfold verifyHmacTokenPromise, includes.
  remember (findTokenByApiKey db (to_String apiKey)) as found eqn:Hfound.
  unfold mbind, promise_bind, promise_then. split.
  - destruct (truthy apiKey); [|done].
    destruct (truthy apiSignature); [|done].
    destruct (js_gt (unix now) apiExpires); [done|]. simpl.
    destruct found as [[[token user]|]|e]; simpl; [|done|done].
    case_bool_decide as Hscope; [|done]. simpl.
    destruct (tk_expiry token <? now) eqn:Hexp; [done|].
    destruct (tk_active token) eqn:Hact; [|done]. simpl.
    destruct (checkHmacSignature _ _) eqn:Hsig; [|done]. simpl.
    destruct user as [user|]; [|done]. simpl. intros [= <-].
    repeat split. exists token, user. repeat split; try done.
    + by apply Z.ltb_ge.
    + by apply checkHmacSignature_arguments in Hsig.
  - intros (-> & -> & -> & token & user & -> & Hscope & Hexp & Hact & Hsig & ->).
    simpl.
    rewrite bool_decide_eq_true_2 by done. simpl.
    rewrite (proj2 (Z.ltb_ge _ _) Hexp), Hact. simpl.
    by rewrite (proj2 (checkHmacSignature_arguments _ _ _ _ _ _ _) Hsig).
Qed.

(** X9. When the promise variant lets a request through, the store holds an
    active row under the presented key, of a type among the required
    scopes and not past its expiry, the presented signature is the one
    computed from that row's secret, the window has not closed, and the
    identity returned is the id and email of the row's owner. *)
Theorem verifyHmacTokenPromise_sound (now : Z) (db : Db)
    (apiKey apiSignature apiExpires : option string) (method originalUrl : string)
    (body : RequestBody JsValue) (required : option (list string)) (s : Subject) :
  verifyHmacTokenPromise cfg now db apiKey apiSignature apiExpires method
    originalUrl body required = resolve s →
  js_gt (unix now) apiExpires = false
  ∧ ∃ token user,
      token ∈ tokens db
      ∧ apiKey = Some (tk_key token)
      ∧ tk_active token = true
      ∧ tk_type token ∈ default (BASE_SCOPES cfg) required
      ∧ now ≤ tk_expiry token
      ∧ apiSignature
        = Some (calculateSignature (Some (tk_secret token)) method originalUrl
                  apiExpires body)
      ∧ user ∈ users db
      ∧ user_id user = tk_user_id token
      ∧ s = {| sub_id := user_id user; sub_email := user_email user |}.
Proof.
  intros Hres. apply verifyHmacTokenPromise_resolve in Hres
    as (Hkey & _ & Hwin & token & user & Hfind & Hscope & Hexp & Hact & Hsig & ->).
  split; [done|]. exists token, user.
  pose proof (findTokenByApiKey_active db _ token (Some user) Hfind) as (Hin & Hk & _).
  unfold findTokenByApiKey in Hfind.
  destruct (findOne _ (tokens db)) as [t'|]; simplify_eq/=.
  match goal with H : findOne _ (users db) = Some _ |- _ =>
    apply findOne_Some in H as [Hu Hid] end.
  apply Z.eqb_eq in Hid.
  destruct apiKey as [k|]; [|done]. simpl in *.
  repeat split; try done. by rewrite Hk.
Qed.

(** X10. On a request with an [api-key] header and no [authorization]
    header, the HMAC middleware sets [req.auth] to an identity and calls
    back exactly when the promise variant, given the request's own key,
    headers, method, path, body and endpoint scopes, resolves with that
    identity: the different order of their first checks does not show. *)
Theorem hmac_middleware_agrees_with_promise (now : Z) (db : Db) (req : Request)
    (apiKey : option string) (isSocket : bool) (s : Subject) :
  is_Some (headers req !! "api-key") →
  headers req !! "authorization" = None →
  verifyHmacTokenMiddleware cfg now db req apiKey isSocket
    = [set_req_auth (auth_sub s); cb_null]
  ↔ verifyHmacTokenPromise cfg now db apiKey (headers req !! "api-signature")
      (headers req !! "api-expires") (method req) (originalUrl req) (body req)
      (swagger req) = resolve s.
Proof.
  intros Hk Ha. apply has_true in Hk. apply has_false in Ha.
  unfold verifyHmacTokenMiddleware, verifyHmacTokenPromise, sendError.
  remember (findTokenByApiKey db (to_String apiKey)) as found eqn:Hfound.
  unfold mbind, promise_bind, promise_then.
  rewrite Hk, Ha. simpl.
  destruct (truthy apiKey); simpl; [|by destruct isSocket].
  destruct (js_gt (unix now) (headers req !! "api-expires")); simpl;
    [destruct (truthy (headers req !! "api-signature")); by destruct isSocket|].
  destruct (truthy (headers req !! "api-signature")); simpl; [|by destruct isSocket].
  destruct found as [[[token user]|]|e];
    simpl; [| by destruct isSocket | by destruct isSocket].
  destruct (negb (includes _ (tk_type token))); [by destruct isSocket|].
  destruct (tk_expiry token <? now); [by destruct isSocket|].
  destruct (negb (tk_active token)); [by destruct isSocket|].
  rewrite (checkHmacSignature_ext (Some (tk_secret token)) req
             {| body := body req;
                headers := signature_headers (headers req !! "api-signature")
                             (headers req !! "api-expires");
                swagger := None; method := method req;
                originalUrl := originalUrl req |});
    try done;
    try (simpl;
         by destruct (signature_headers_lookup (headers req !! "api-signature")
                        (headers req !! "api-expires")) as [Hs He]).
  destruct (checkHmacSignature _ _); simpl; [|by destruct isSocket].
  destruct (token_identity user) as [s'|e]; [|by destruct isSocket].
  split; [by intros [= ->] | by intros [= ->]].
Qed.

End ApiKeysMore.

(** ** More on creating an API key *)

Lemma findOne_app_skip {A} (p : A → bool) (l l' : list A) :
  (∀ x, x ∈ l → p x = false) → findOne p (l ++ l') = findOne p l'.
Proof.
  unfold findOne. induction l as [|a l IH]; intros Hall; [done|]. simpl.
  rewrite (Hall a) by apply list_elem_of_here.
  apply IH. intros x Hx. apply Hall. by apply list_elem_of_further.
Qed.

Lemma findOne_app_found {A} (p : A → bool) (l l' : list A) (x : A) :
  findOne p l = Some x → findOne p (l ++ l') = Some x.
Proof.
  unfold findOne. induction l as [|a l IH]; [done|]. simpl.
  destruct (p a); [done | apply IH].
Qed.

Lemma findOne_desc_Some {A} (p : A → bool) (column : A → Z) (l : list A) (x : A) :
  findOne_desc p column l = Some x → x ∈ l ∧ p x = true.
Proof.
  unfold findOne_desc. intros Hfold.
  assert (x ∈ List.filter p l) as Hin.
  { revert x Hfold. induction (List.filter p l) as [|a l' IH]; intros x; [done|].
    simpl. destruct (foldr _ None l') as [b|] eqn:Hrest.
    - destruct (column b <=? column a); intros [= <-].
      + apply list_elem_of_here.
      + apply list_elem_of_further. by apply IH.
    - intros [= <-]. apply list_elem_of_here. }
  apply list_elem_of_In, List.filter_In in Hin as [Hin Hp].
  split; [by apply list_elem_of_In | done].
Qed.

Section CreateKeyMore.
Context `{R : Runtime} (cfg : Config).

Lemma checkUserOtpActive_resolve (now : Z) (db : Db) (userId : Z)
    (otpCode : option string) (u : unit) :
  checkUserOtpActive cfg now db userId otpCode = resolve u →
  ∃ user row,
    findOne (λ u, user_id u =? userId) (users db) = Some user
    ∧ otp_enabled user = true
    ∧ row ∈ otp_codes db
    ∧ otp_used row = true
    ∧ otp_user_id row = userId
    ∧ verifyOtp cfg now (otp_secret row) otpCode = true.
Proof.
  unfold checkUserOtpActive, all2, getUserByKitId, verifyOtpBeforeAction,
    hasUserOtpEnabled, verifyUserOtpCode, mbind, promise_bind, promise_then.
  destruct (findOne _ (users db)) as [user|]; simpl; [|done].
  destruct (otp_enabled user) eqn:Hen; simpl; [|by rewrite Hen].
  destruct (findOne_desc _ _ (otp_codes db)) as [row|] eqn:Hrow; simpl; [|done].
  destruct (verifyOtp cfg now (otp_secret row) otpCode) eqn:Hcode; simpl; [|done].
  intros _. exists user, row.
  apply findOne_desc_Some in Hrow as [Hin [Hused Hown]%andb_true_iff].
  apply Z.eqb_eq in Hown. done.
Qed.

(** X12. [createUserKitHmacToken] either is rejected and leaves the store as
    it was, or it resolves with the drawn key and secret; in that case the
    user has OTP enabled, the code is one that a used OTP secret of that
    user accepts, and the store has gained one token row and nothing else:
    active, not revoked, owned by the user, expiring [HMAC_TOKEN_EXPIRY]
    after the call. *)
Theorem createUserKitHmacToken_outcomes (now : Z) (randomKey randomSecret : string)
    (db : Db) (userId : Z) (otpCode ip name : option string)
    (result : Promise NewKey) (db' : Db) :
  createUserKitHmacToken cfg now randomKey randomSecret db userId otpCode ip name
    = (result, db') →
  (∃ e, result = reject e ∧ db' = db)
  ∨ (result = resolve {| nk_id := userId; nk_apiKey := randomKey;
                         nk_secret := randomSecret |}
     ∧ (∃ user row,
          findOne (λ u, user_id u =? userId) (users db) = Some user
          ∧ otp_enabled user = true
          ∧ row ∈ otp_codes db ∧ otp_used row = true ∧ otp_user_id row = userId
          ∧ verifyOtp cfg now (otp_secret row) otpCode = true)
     ∧ (∃ new, tokens db' = tokens db ++ [new]
               ∧ tk_key new = randomKey ∧ tk_secret new = randomSecret
               ∧ tk_user_id new = userId
               ∧ tk_active new = true ∧ tk_revoked new = false
               ∧ tk_expiry new = now + HMAC_TOKEN_EXPIRY cfg)
     ∧ users db' = users db ∧ otp_codes db' = otp_codes db
     ∧ reset_password_codes db' = reset_password_codes db
     ∧ status db' = status db).
Proof.
  unfold createUserKitHmacToken.
  destruct (checkUserOtpActive cfg now db userId otpCode) as [u|e] eqn:Hgate.
  - intros [= <- <-]. right. split; [done|]. split.
    + by apply (checkUserOtpActive_resolve now db userId otpCode u).
    + split; [|done]. eexists. by split.
  - intros [= <- <-]. left. by exists e.
Qed.

Lemma verifyHmacTokenPromise_found (now : Z) (db : Db)
    (apiKey apiSignature apiExpires : option string) (method originalUrl : string)
    (body : RequestBody JsValue) (required : option (list string))
    (token : Token) (user : option User) :
  findTokenByApiKey db (to_String apiKey) = resolve (Some (token, user)) →
  truthy apiKey = true →
  truthy apiSignature = true →
  js_gt (unix now) apiExpires = false →
  verifyHmacTokenPromise cfg now db apiKey apiSignature apiExpires method
    originalUrl body required =
  if negb (includes (default (BASE_SCOPES cfg) required) (tk_type token)) then
    reject (new_Error API_KEY_OUT_OF_SCOPE)
  else if tk_expiry token <? now then reject (new_Error API_KEY_EXPIRED)
  else if negb (tk_active token) then reject (new_Error API_KEY_INACTIVE)
  else if negb (bool_decide
                  (apiSignature
                   = Some (calculateSignature (Some (tk_secret token)) method
                             originalUrl apiExpires body)))
  then reject (new_Error API_SIGNATURE_INVALID)
  else token_identity user.
Proof.
  intros Hfind Hk Hs Hw. unfold verifyHmacTokenPromise.
  rewrite Hk, Hs, Hw, Hfind. simpl.
  destruct (negb (includes _ (tk_type token))); [done|].
  destruct (tk_expiry token <? now); [done|].
  destruct (negb (tk_active token)); [done|].
  destruct (checkHmacSignature _ _) eqn:Hsig; case_bool_decide as Hdec; try done.
  - exfalso. apply Hdec. by apply checkHmacSignature_arguments in Hsig.
  - apply checkHmacSignature_arguments with (sw := None) in Hdec. congruence.
Qed.

(** X11. A key that [createUserKitHmacToken] has just made, the key being
    new to the token table and not empty: a request under that key, within
    the key's life and the request window, signed with the secret that was
    returned, resolves with the creating user's id when [TOKEN_TYPES.HMAC]
    is among the required scopes, and is refused with
    [API_KEY_OUT_OF_SCOPE] when it is not. *)
Theorem created_key_verifies (now : Z) (randomKey randomSecret : string)
    (db db' : Db) (userId : Z) (otpCode ip name : option string) (key : NewKey)
    (later : Z) (apiExpires : option string) (method originalUrl : string)
    (body : RequestBody JsValue) (required : option (list string)) :
  createUserKitHmacToken cfg now randomKey randomSecret db userId otpCode ip name
    = (resolve key, db') →
  randomKey ≠ "" →
  (∀ t, t ∈ tokens db → tk_key t ≠ randomKey) →
  later ≤ now + HMAC_TOKEN_EXPIRY cfg →
  js_gt (unix later) apiExpires = false →
  let apiSignature :=
    calculateSignature (Some (nk_secret key)) method originalUrl apiExpires body in
  apiSignature ≠ "" →
  let result :=
    verifyHmacTokenPromise cfg later db' (Some (nk_apiKey key)) (Some apiSignature)
      apiExpires method originalUrl body required in
  (TOKEN_TYPES_HMAC cfg ∈ default (BASE_SCOPES cfg) required →
   ∃ email, result = resolve {| sub_id := userId; sub_email := email |})
  ∧ (TOKEN_TYPES_HMAC cfg ∉ default (BASE_SCOPES cfg) required →
     result = reject (new_Error API_KEY_OUT_OF_SCOPE)).
Proof.
  intros Hcreate Hkey Hfresh Hlife Hwindow apiSignature Hsig result.
  unfold createUserKitHmacToken in Hcreate.
  destruct (checkUserOtpActive cfg now db userId otpCode) as [u|e] eqn:Hgate;
    [|done].
  apply checkUserOtpActive_resolve in Hgate as (user & _ & Huser & _).
  injection Hcreate as <- <-.
  set (new := {| tk_id := next_id (tokens db); tk_user_id := userId; tk_ip := ip;
                 tk_key := randomKey; tk_secret := randomSecret;
                 tk_expiry := now + HMAC_TOKEN_EXPIRY cfg;
                 tk_role := ROLES_USER cfg; tk_type := TOKEN_TYPES_HMAC cfg;
                 tk_name := name; tk_active := true; tk_revoked := false |}) in *.
  assert (findTokenByApiKey (create_token db new) randomKey
          = resolve (Some (new, Some user))) as Hfind.
  { unfold findTokenByApiKey. simpl.
    rewrite findOne_app_skip.
    - simpl. rewrite String.eqb_refl. simpl. by rewrite Huser.
    - intros t Ht. by rewrite (string_eqb_false _ _ (Hfresh t Ht)). }
  subst result. simpl in *.
  rewrite (verifyHmacTokenPromise_found later (create_token db new)
             (Some randomKey) (Some apiSignature) apiExpires method originalUrl
             body required new (Some user) Hfind);
    [| by simpl; rewrite (string_eqb_false _ _ Hkey)
     | by simpl; rewrite (string_eqb_false _ _ Hsig)
     | done].
  unfold includes. simpl. split.
  - intros Hscope. rewrite bool_decide_eq_true_2 by done. simpl.
    rewrite (proj2 (Z.ltb_ge _ _) Hlife).
    rewrite bool_decide_eq_true_2 by done. simpl.
    exists (user_email user). apply findOne_Some in Huser as [_ Hid].
    apply Z.eqb_eq in Hid. by rewrite Hid.
  - intros Hscope. by rewrite bool_decide_eq_false_2.
Qed.

End CreateKeyMore.

(** ** More on passwords and reset codes *)

Lemma all_dots_no_terminator (s : string) :
  all_dots s = negb (string_exists is_line_terminator s).
Proof.
  induction s as [|c s IH]; [done|]. simpl. rewrite IH.
  by destruct (is_line_terminator c).
Qed.

Lemma lookahead_exists (class : ascii → bool) (s : string) :
  all_dots s = true → lookahead class s = string_exists class s.
Proof.
  induction s as [|c s IH]; [done|]. simpl.
  intros [Hc Hs]%andb_true_iff. apply negb_true_iff in Hc.
  rewrite Hc, (IH Hs). by destruct (class c).
Qed.

(** X13. The pattern of [isValidPassword] accepts a value exactly when it
    has eight characters or more, no line terminator, a letter and a
    digit. *)
Theorem isValidPassword_strong_enough (value : string) :
  isValidPassword value = strong_enough value.
Proof.
  unfold isValidPassword, strong_enough.
  rewrite <- all_dots_no_terminator.
  destruct (all_dots value) eqn:Hdots.
  - rewrite !lookahead_exists by done.
    destruct (string_exists is_letter value), (string_exists is_digit value),
      (8 <=? Z.of_nat (String.length value)); done.
  - destruct (lookahead is_letter value), (lookahead is_digit value),
      (8 <=? Z.of_nat (String.length value)),
      (string_exists is_letter value), (string_exists is_digit value); done.
Qed.

Lemma fmap_update_first {A B} (p : A → bool) (g : A → A) (f : A → B) (l : list A) :
  (∀ x, f (g x) = f x) → f <$> update_first p g l = f <$> l.
Proof.
  intros Hkeep. induction l as [|a l IH]; [done|]. simpl.
  destruct (p a); rewrite !fmap_cons; [by rewrite Hkeep | by rewrite IH].
Qed.

Lemma resetUserPassword_unused (db : Db) (code newPassword : string)
    (row : ResetPasswordCode) (user : User) :
  isValidPassword newPassword = true →
  findOne (λ c, String.eqb (rc_code c) code) (reset_password_codes db) = Some row →
  rc_used row = false →
  findOne (λ u, user_id u =? rc_user_id row) (users db) = Some user →
  resetUserPassword db code newPassword =
  (resolve (set_password newPassword user),
   {| users := update_first (λ u, user_id u =? rc_user_id row)
                 (set_password newPassword) (users db);
      otp_codes := otp_codes db;
      tokens := tokens db;
      reset_password_codes :=
        update_first (λ c, String.eqb (rc_code c) code) set_used
          (reset_password_codes db);
      status := status db |}).
Proof.
  intros Hvalid Hrow Hunused Huser.
  unfold resetUserPassword, getResetPasswordCode, getUserByKitId.
  rewrite Hvalid, Hrow. simpl. rewrite Hunused, Huser. done.
Qed.

(** X14. Once [resetUserPassword] has resolved with a code, every later
    call with that code and a password of valid format is rejected with
    [CODE_USED] and changes nothing. *)
Theorem reset_code_used_once (db db' : Db) (code newPassword again : string)
    (user : User) :
  resetUserPassword db code newPassword = (resolve user, db') →
  isValidPassword again = true →
  resetUserPassword db' code again = (reject (new_Error CODE_USED), db').
Proof.
  intros Hfirst Hvalid.
  assert (∃ row, findOne (λ c, String.eqb (rc_code c) code)
                   (reset_password_codes db') = Some (set_used row)) as [row Hrow].
  { revert Hfirst. unfold resetUserPassword, getResetPasswordCode, getUserByKitId.
    destruct (negb (isValidPassword newPassword)); [done|].
    destruct (findOne _ (reset_password_codes db)) as [row|] eqn:Hrow; [|done].
    destruct (rc_used row); [done|]. simpl.
    destruct (findOne _ (users db)) as [u|]; [|done].
    intros [= _ <-]. exists row. simpl.
    rewrite findOne_update_first by done. by rewrite Hrow. }
  unfold resetUserPassword, getResetPasswordCode. by rewrite Hvalid, Hrow.
Qed.

(** [update_first] rewrites one row at most: all rows but one are what they
    were, and a row is what it was or its rewriting. *)
Lemma update_first_one_row {A} (p : A → bool) (g : A → A) (l : list A) :
  ∃ i : nat, ∀ j : nat, j ≠ i → update_first p g l !! j = l !! j.
Proof.
  induction l as [|a l [i IH]]; [by exists 0%nat|]. simpl.
  destruct (p a).
  - exists 0%nat. intros [|j] Hj; [done|reflexivity].
  - exists (S i). intros [|j] Hj; [done|]. simpl. apply IH. lia.
Qed.

Lemma update_first_row {A} (p : A → bool) (g : A → A) (l : list A) (j : nat)
    (x' : A) :
  update_first p g l !! j = Some x' →
  ∃ x, l !! j = Some x ∧ (x' = x ∨ x' = g x).
Proof.
  revert j. induction l as [|a l IH]; intros j; [done|]. simpl.
  destruct (p a).
  - destruct j as [|j]; simpl; intros Hj; simplify_eq; eauto.
  - destruct j as [|j]; simpl; intros Hj; simplify_eq; eauto.
Qed.

Lemma same_list_one_row {A} (l : list A) :
  ∃ i : nat, ∀ j : nat, j ≠ i → l !! j = l !! j.
Proof. by exists 0%nat. Qed.

Lemma same_list_row {A} (g : A → A) (l : list A) (j : nat) (x' : A) :
  l !! j = Some x' → ∃ x, l !! j = Some x ∧ (x' = x ∨ x' = g x).
Proof. intros Hj. exists x'. by split; [|left]. Qed.

(** X18. Whatever its outcome, [resetUserPassword] leaves the tokens, the
    OTP secrets and the status row alone, keeps every user's id, email and
    OTP flag, and keeps every reset code's text and owner. It writes at
    most one [used] flag and at most one password: all reset codes but one
    and all users but one are what they were, a reset code is what it was
    or has [used] set, a user is what it was or has the new password. *)
Theorem resetUserPassword_frame (db db' : Db) (code newPassword : string)
    (result : Promise User) :
  resetUserPassword db code newPassword = (result, db') →
  tokens db' = tokens db
  ∧ otp_codes db' = otp_codes db
  ∧ status db' = status db
  ∧ user_id <$> users db' = user_id <$> users db
  ∧ user_email <$> users db' = user_email <$> users db
  ∧ otp_enabled <$> users db' = otp_enabled <$> users db
  ∧ rc_code <$> reset_password_codes db' = rc_code <$> reset_password_codes db
  ∧ rc_user_id <$> reset_password_codes db'
    = rc_user_id <$> reset_password_codes db
  ∧ (∃ i : nat, ∀ j : nat, j ≠ i → users db' !! j = users db !! j)
  ∧ (∀ (j : nat) u', users db' !! j = Some u' →
       ∃ u, users db !! j = Some u ∧ (u' = u ∨ u' = set_password newPassword u))
  ∧ (∃ i : nat, ∀ j : nat, j ≠ i →
       reset_password_codes db' !! j = reset_password_codes db !! j)
  ∧ (∀ (j : nat) c', reset_password_codes db' !! j = Some c' →
       ∃ c, reset_password_codes db !! j = Some c ∧ (c' = c ∨ c' = set_used c)).
Proof.
  assert (∀ db0 : Db,
            (∃ i : nat, ∀ j : nat, j ≠ i → users db0 !! j = users db0 !! j)
            ∧ (∀ (j : nat) u', users db0 !! j = Some u' →
                 ∃ u, users db0 !! j = Some u
                      ∧ (u' = u ∨ u' = set_password newPassword u))
            ∧ (∃ i : nat, ∀ j : nat, j ≠ i →
                 reset_password_codes db0 !! j = reset_password_codes db0 !! j)
            ∧ (∀ (j : nat) c', reset_password_codes db0 !! j = Some c' →
                 ∃ c, reset_password_codes db0 !! j = Some c
                      ∧ (c' = c ∨ c' = set_used c))) as Hsame.
  { intros db0. split; [apply same_list_one_row|]. split; [apply same_list_row|].
    split; [apply same_list_one_row | apply same_list_row]. }
  unfold resetUserPassword, getResetPasswordCode, getUserByKitId.
  destruct (negb (isValidPassword newPassword));
    [intros [= <- <-]; do 8 (split; [done|]); apply Hsame|].
  destruct (findOne _ (reset_password_codes db)) as [row|];
    [|intros [= <- <-]; do 8 (split; [done|]); apply Hsame].
  destruct (rc_used row);
    [intros [= <- <-]; do 8 (split; [done|]); apply Hsame|]. simpl.
  destruct (findOne _ (users db)) as [u|]; intros [= <- <-]; simpl;
    rewrite ?fmap_update_first by done;
    do 8 (split; [done|]).
  - split; [apply update_first_one_row|]. split; [apply update_first_row|].
    split; [apply update_first_one_row | apply update_first_row].
  - split; [apply same_list_one_row|]. split; [apply same_list_row|].
    split; [apply update_first_one_row | apply update_first_row].
Qed.

Section ResetCodes.

Lemma createResetPasswordCode_pending (uuid : string) (db : Db) (userId : Z) :
  ∃ row,
    createResetPasswordCode uuid db userId
    = (resolve (rc_code row),
       match findOne (λ c, (rc_user_id c =? userId) && negb (rc_used c))
               (reset_password_codes db) with
       | Some _ => db
       | None => with_reset_password_codes db (reset_password_codes db ++ [row])
       end)
    ∧ rc_user_id row = userId ∧ rc_used row = false
    ∧ findOne (λ c, (rc_user_id c =? userId) && negb (rc_used c))
        (reset_password_codes (createResetPasswordCode uuid db userId).2)
      = Some row
    ∧ (findOne (λ c, (rc_user_id c =? userId) && negb (rc_used c))
         (reset_password_codes db) = None → rc_code row = uuid).
Proof.
  unfold createResetPasswordCode.
  destruct (findOne _ (reset_password_codes db)) as [row|] eqn:Hfind.
  - exists row. simpl. rewrite Hfind.
    apply findOne_Some in Hfind as [_ [Hu Hn]%andb_true_iff].
    apply Z.eqb_eq in Hu. apply negb_true_iff in Hn. done.
  - eexists. split; [reflexivity|]. simpl.
    split; [done|]. split; [done|]. split; [|done].
    rewrite findOne_app_skip.
    + simpl. by rewrite Z.eqb_refl.
    + intros x Hx. destruct ((rc_user_id x =? userId) && negb (rc_used x)) eqn:Hp;
        [|done].
      unfold findOne in Hfind.
      rewrite (List.find_none _ _ Hfind x) in Hp; [done|]. by apply list_elem_of_In.
Qed.

(** X15. Asking twice for a reset code for the same user gives the same
    code, and the second request leaves the store as the first one left
    it. The first request itself either leaves the store as it was or adds
    one row and nothing else: an unused row of that user, holding the draw,
    at the end of the table. So at most one row is ever added, whatever the
    two draws. *)
Theorem createResetPasswordCode_idempotent (uuid uuid' : string) (db : Db)
    (userId : Z) :
  let first := createResetPasswordCode uuid db userId in
  createResetPasswordCode uuid' first.2 userId = (first.1, first.2)
  ∧ (first.2 = db
     ∨ ∃ row,
         first.2 = with_reset_password_codes db (reset_password_codes db ++ [row])
         ∧ first.1 = resolve uuid
         ∧ rc_code row = uuid ∧ rc_user_id row = userId ∧ rc_used row = false).
Proof.
  intros first. subst first.
  destruct (createResetPasswordCode_pending uuid db userId)
    as (row & Hcreate & Hown & Hunused & Hfound & Huuid).
  split.
  - rewrite Hcreate in *. simpl in *.
    unfold createResetPasswordCode at 1. by rewrite Hfound.
  - rewrite Hcreate. simpl.
    destruct (findOne _ (reset_password_codes db)); [by left|].
    right. exists row. by rewrite (Huuid eq_refl).
Qed.

(** X16. From request to reset. Codes being unique in their table, the draw
    being new to it and the user being there: the code
    [createResetPasswordCode] hands out resets that user's password to any
    password of valid format, after which the user's row carries the new
    password and the code is refused with [CODE_USED]. *)
Theorem reset_code_resets_password (uuid : string) (db : Db) (userId : Z)
    (user : User) (newPassword : string) :
  NoDup (rc_code <$> reset_password_codes db) →
  uuid ∉ rc_code <$> reset_password_codes db →
  findOne (λ u, user_id u =? userId) (users db) = Some user →
  isValidPassword newPassword = true →
  ∃ code db1 db2,
    createResetPasswordCode uuid db userId = (resolve code, db1)
    ∧ resetUserPassword db1 code newPassword
      = (resolve (set_password newPassword user), db2)
    ∧ findOne (λ u, user_id u =? userId) (users db2)
      = Some (set_password newPassword user)
    ∧ ∀ again, isValidPassword again = true →
        resetUserPassword db2 code again = (reject (new_Error CODE_USED), db2).
Proof.
  intros Hnd Hfresh Huser Hvalid.
  destruct (createResetPasswordCode_pending uuid db userId)
    as (row & Hcreate & Hown & Hunused & Hfound & Huuid).
  set (db1 := (createResetPasswordCode uuid db userId).2) in *.
  assert (users db1 = users db) as Husers.
  { subst db1. rewrite Hcreate. simpl.
    by destruct (findOne _ (reset_password_codes db)). }
  assert (findOne (λ c, String.eqb (rc_code c) (rc_code row))
            (reset_password_codes db1) = Some row) as Hrow.
  { apply findOne_Some in Hfound as [Hin _].
    apply findOne_code; [|done].
    subst db1. rewrite Hcreate. simpl.
    destruct (findOne _ (reset_password_codes db)) eqn:Hpending; [done|].
    simpl. rewrite fmap_app. apply NoDup_app. split; [done|]. split.
    - intros x Hx [->|[]%elem_of_nil]%elem_of_cons.
      by rewrite (Huuid eq_refl) in Hx.
    - apply NoDup_singleton. }
  assert (findOne (λ u, user_id u =? rc_user_id row) (users db1) = Some user)
    as Huser1 by (by rewrite Husers, Hown).
  pose proof (resetUserPassword_unused db1 (rc_code row) newPassword row user
                Hvalid Hrow Hunused Huser1) as Hreset.
  eexists (rc_code row), db1, _. split; [|split; [exact Hreset|split]].
  - subst db1. by rewrite Hcreate.
  - simpl. rewrite Hown, findOne_update_first by done.
    by rewrite Husers, Huser.
  - intros again Hagain.
    by apply (resetUserPassword_consumes db1 _ (rc_code row) newPassword again
                (set_password newPassword user)).
Qed.

End ResetCodes.

Section ChangePassword.
Variable bcrypt_compare : string → string → bool.

(** X17. [changeUserPassword] either is rejected and leaves the store as it
    was, or it resolves; in that case the two passwords differ, the new one
    has a valid format, [bcrypt.compare] accepts the old one against the
    stored password of the user the email designates, that user's row now
    carries the new password, and nothing else in the store has changed. *)
Theorem changeUserPassword_outcomes (db db' : Db)
    (email oldPassword newPassword : string) (result : Promise User) :
  changeUserPassword bcrypt_compare db email oldPassword newPassword
    = (result, db') →
  (∃ e, result = reject e ∧ db' = db)
  ∨ (oldPassword ≠ newPassword
     ∧ isValidPassword newPassword = true
     ∧ ∃ user,
         findOne (λ u, String.eqb (user_email u) email) (users db) = Some user
         ∧ bcrypt_compare oldPassword (password user) = true
         ∧ result = resolve (set_password newPassword user)
         ∧ findOne (λ u, String.eqb (user_email u) email) (users db')
           = Some (set_password newPassword user)
         ∧ user_id <$> users db' = user_id <$> users db
         ∧ user_email <$> users db' = user_email <$> users db
         ∧ otp_enabled <$> users db' = otp_enabled <$> users db
         ∧ tokens db' = tokens db ∧ otp_codes db' = otp_codes db
         ∧ reset_password_codes db' = reset_password_codes db
         ∧ status db' = status db).
Proof.
  unfold changeUserPassword, getUserByEmail, validatePassword.
  destruct (String.eqb_spec oldPassword newPassword) as [|Hdiff];
    [intros [= <- <-]; left; by eexists|].
  destruct (isValidPassword newPassword) eqn:Hvalid; simpl;
    [|intros [= <- <-]; left; by eexists].
  destruct (findOne _ (users db)) as [user|] eqn:Huser;
    [|intros [= <- <-]; left; by eexists].
  destruct (bcrypt_compare oldPassword (password user)) eqn:Hold; simpl;
    [|intros [= <- <-]; left; by eexists].
  intros [= <- <-]. right. split; [done|]. split; [done|].
  exists user. simpl. rewrite findOne_update_first by done.
  rewrite Huser, !fmap_update_first by done. done.
Qed.

End ChangePassword.

(** ** Enrolment *)

Lemma update_first_app_skip {A} (p : A → bool) (g : A → A) (l l' : list A) :
  (∀ x, x ∈ l → p x = false) →
  update_first p g (l ++ l') = l ++ update_first p g l'.
Proof.
  induction l as [|a l IH]; intros Hall; [done|]. simpl.
  rewrite (Hall a) by apply list_elem_of_here.
  f_equal. apply IH. intros x Hx. apply Hall. by apply list_elem_of_further.
Qed.

Lemma filter_none {A} (p : A → bool) (l : list A) :
  (∀ x, x ∈ l → p x = false) → List.filter p l = [].
Proof.
  induction l as [|a l IH]; intros Hall; [done|]. simpl.
  rewrite (Hall a) by apply list_elem_of_here.
  apply IH. intros x Hx. apply Hall. by apply list_elem_of_further.
Qed.

(** Marking the first row of a kind as no longer of that kind leaves one
    row fewer of the kind. *)
Lemma filter_update_first {A} (p : A → bool) (g : A → A) (l : list A) (x : A) :
  (∀ y, p y = true → p (g y) = false) →
  findOne p l = Some x →
  S (length (List.filter p (update_first p g l))) = length (List.filter p l).
Proof.
  intros Hout. unfold findOne.
  induction l as [|a l IH]; [done|]. simpl.
  destruct (p a) eqn:Hp; simpl.
  - intros _. by rewrite (Hout a Hp).
  - intros Hx. rewrite Hp. by apply IH.
Qed.

Section Enrolment.
Context `{R : Runtime} (cfg : Config).

(** X20. [setActiveUserOtp] either is rejected and leaves the store as it
    was, or it resolves; in that case the user now has OTP enabled and
    exactly one of the user's unused secrets has become used, while the
    secrets' texts and owners, the users' ids, emails and passwords, the
    tokens, the reset codes and the status row are as before. *)
Theorem setActiveUserOtp_outcomes (db db' : Db) (userId : Z)
    (result : Promise User) :
  setActiveUserOtp db userId = (result, db') →
  (∃ e, result = reject e ∧ db' = db)
  ∨ ((∃ user, result = resolve user ∧ otp_enabled user = true)
     ∧ hasUserOtpEnabled db' userId = resolve true
     ∧ S (length (List.filter (pending_secret userId) (otp_codes db')))
       = length (List.filter (pending_secret userId) (otp_codes db))
     ∧ otp_secret <$> otp_codes db' = otp_secret <$> otp_codes db
     ∧ otp_user_id <$> otp_codes db' = otp_user_id <$> otp_codes db
     ∧ user_id <$> users db' = user_id <$> users db
     ∧ user_email <$> users db' = user_email <$> users db
     ∧ password <$> users db' = password <$> users db
     ∧ tokens db' = tokens db
     ∧ reset_password_codes db' = reset_password_codes db
     ∧ status db' = status db).
Proof.
  unfold setActiveUserOtp, findUserOtp, updateUserOtpEnabled.
  change (λ c : OtpCode, negb (otp_used c) && (otp_user_id c =? userId))
    with (pending_secret userId).
  destruct (findOne (pending_secret userId) (otp_codes db)) as [otp|] eqn:Hotp;
    [|intros [= <- <-]; left; by eexists].
  simpl.
  destruct (findOne _ (users db)) as [user|] eqn:Huser;
    [|intros [= <- <-]; left; by eexists].
  intros [= <- <-]. right. split; [by eexists|].
  unfold hasUserOtpEnabled. simpl.
  rewrite findOne_update_first, Huser by done. simpl.
  rewrite !fmap_update_first by done.
  repeat split; try done.
  apply (filter_update_first _ _ _ otp); [|done].
  intros y Hy. unfold pending_secret. simpl. done.
Qed.

End Enrolment.

Section EnrolmentFlow.
Context `{R : Runtime} (cfg : Config).

(** X19. Enrolment from start to end, for a user with no OTP secret yet:
    [createOtp] followed by [setActiveUserOtp] resolves and enables OTP, and
    from then on both OTP gates accept a code exactly when [verifyOtp]
    accepts it against the secret that was created. *)
Theorem enrolment_binds_the_secret (now : Z) (secret : string) (db : Db)
    (userId : Z) (user : User) :
  findOne (λ u, user_id u =? userId) (users db) = Some user →
  (∀ c, c ∈ otp_codes db → otp_user_id c ≠ userId) →
  ∃ db1 db2,
    createOtp now secret db userId = (resolve secret, db1)
    ∧ setActiveUserOtp db1 userId = (resolve (set_otp_enabled true user), db2)
    ∧ ∀ later code,
        verifyOtpBeforeAction cfg later db2 userId code
        = (if verifyOtp cfg later secret code then resolve true
           else reject (new_Error INVALID_OTP_CODE))
        ∧ checkUserOtpActive cfg later db2 userId code
          = (if verifyOtp cfg later secret code then resolve tt
             else reject (new_Error INVALID_OTP_CODE)).
Proof.
  intros Huser Hnone.
  set (row := {| otp_id := 1 + foldr (λ c m, Z.max (otp_id c) m) 0 (otp_codes db);
                 otp_user_id := userId; otp_secret := secret; otp_used := false;
                 otp_updated_at := now |}).
  assert (∀ (p : OtpCode → bool), (∀ c, p c = true → otp_user_id c = userId) →
          ∀ c, c ∈ otp_codes db → p c = false) as Hskip.
  { intros p Hp c Hc. destruct (p c) eqn:Hpc; [|done].
    by destruct (Hnone c Hc (Hp c Hpc)). }
  assert (∀ c, pending_secret userId c = true → otp_user_id c = userId) as Hpend.
  { intros c [_ Hc]%andb_true_iff. by apply Z.eqb_eq. }
  assert (∀ c, otp_used c && (otp_user_id c =? userId) = true
               → otp_user_id c = userId) as Hused.
  { intros c [_ Hc]%andb_true_iff. by apply Z.eqb_eq. }
  eexists _, _. split; [reflexivity|].
  assert (setActiveUserOtp (with_otp_codes db (otp_codes db ++ [row])) userId
          = (resolve (set_otp_enabled true user),
             with_users
               (with_otp_codes db (otp_codes db ++ [set_otp_used row]))
               (update_first (λ u, user_id u =? userId) (set_otp_enabled true)
                  (users db)))) as Hset.
  { unfold setActiveUserOtp, findUserOtp, updateUserOtpEnabled.
    change (λ c : OtpCode, negb (otp_used c) && (otp_user_id c =? userId))
      with (pending_secret userId).
    simpl. rewrite findOne_app_skip by (by apply Hskip).
    simpl. unfold pending_secret at 1. simpl. rewrite Z.eqb_refl. simpl.
    rewrite Huser. rewrite update_first_app_skip by (by apply Hskip).
    simpl. unfold pending_secret at 1. simpl. by rewrite Z.eqb_refl. }
  split; [exact Hset|].
  intros later code.
  assert (verifyOtpBeforeAction cfg later
            (with_users
               (with_otp_codes db (otp_codes db ++ [set_otp_used row]))
               (update_first (λ u, user_id u =? userId) (set_otp_enabled true)
                  (users db))) userId code
          = (if verifyOtp cfg later secret code then resolve true
             else reject (new_Error INVALID_OTP_CODE))) as Hgate.
  { unfold verifyOtpBeforeAction, hasUserOtpEnabled, verifyUserOtpCode,
      findOne_desc. simpl.
    rewrite findOne_update_first, Huser by done. simpl.
    rewrite List.filter_app, filter_none by (by apply Hskip).
    simpl. by rewrite Z.eqb_refl. }
  split; [exact Hgate|].
  unfold checkUserOtpActive, all2, getUserByKitId. rewrite Hgate. simpl.
  rewrite findOne_update_first, Huser by done. simpl.
  by destruct (verifyOtp cfg later secret code).
Qed.

End EnrolmentFlow.

(** ** Listing and revoking API keys *)

Section Listing.
Context `{R : Runtime} (cfg : Config).
Variable created_at : Token → Z.
Variable raw_update : Db → Token → Promise Token * Db.

#[local] Instance listed_before_total : Total (listed_before created_at).
Proof. intros a b. unfold listed_before. lia. Qed.

(** X21. [getUserKitHmacTokens] resolves with the formatted rows of the
    user whose role is [TOKEN_TYPES.HMAC], each exactly once, newest first
    and by ascending id among rows created together; [count] is the number
    of entries. *)
Theorem getUserKitHmacTokens_listing (db : Db) (userId : Z) :
  ∃ rows,
    getUserKitHmacTokens cfg created_at db userId
    = resolve {| count := Z.of_nat (length rows);
                 data := formatTokenObject created_at <$> rows |}
    ∧ rows ≡ₚ List.filter (λ t, (tk_user_id t =? userId)
                                 && String.eqb (tk_role t) (TOKEN_TYPES_HMAC cfg))
                (tokens db)
    ∧ Sorted (listed_before created_at) rows
    ∧ ∀ t, t ∈ rows ↔
        t ∈ tokens db ∧ tk_user_id t = userId ∧ tk_role t = TOKEN_TYPES_HMAC cfg.
Proof.
  eexists. split; [reflexivity|]. split; [apply merge_sort_Permutation|].
  split; [apply (Sorted_merge_sort _)|].
  intros t. rewrite merge_sort_Permutation.
  rewrite list_elem_of_In, List.filter_In, <- list_elem_of_In.
  rewrite andb_true_iff, Z.eqb_eq, String.eqb_eq. tauto.
Qed.

(** X22. [deleteUserKitHmacToken] either is rejected before any write and
    leaves the store as it was, or it has passed the OTP gate and hands to
    the store's update a row of the token table that has the id asked for,
    belongs to the calling user and is not yet revoked: no other row is
    ever handed over. *)
Theorem deleteUserKitHmacToken_outcomes (now : Z) (db db' : Db) (userId : Z)
    (otpCode : option string) (tokenId : Z) (result : Promise FormattedToken) :
  deleteUserKitHmacToken cfg created_at raw_update now db userId otpCode tokenId
    = (result, db') →
  (∃ e, result = reject e ∧ db' = db)
  ∨ ∃ token updated,
      checkUserOtpActive cfg now db userId otpCode = resolve tt
      ∧ token ∈ tokens db
      ∧ tk_id token = tokenId
      ∧ tk_user_id token = userId
      ∧ tk_revoked token = false
      ∧ raw_update db token = (updated, db')
      ∧ result = promise_then (λ t, resolve (formatTokenObject created_at t)) updated.
Proof.
  unfold deleteUserKitHmacToken.
  destruct (checkUserOtpActive cfg now db userId otpCode) as [[]|e];
    [|intros [= <- <-]; left; by eexists].
  destruct (findOne _ (tokens db)) as [token|] eqn:Hfind;
    [|intros [= <- <-]; left; by eexists].
  destruct (tk_revoked token) eqn:Hrev; [intros [= <- <-]; left; by eexists|].
  destruct (raw_update db token) as [updated db''] eqn:Hup.
  intros [= <- <-]. right. exists token, updated.
  apply findOne_Some in Hfind as [Hin [Hid Hown]%andb_true_iff].
  apply Z.eqb_eq in Hid. apply Z.eqb_eq in Hown. done.
Qed.

(** X23. Once the OTP gate is passed: a token id under which the calling
    user owns no row (the id may be another user's) is answered with
    [TOKEN_NOT_FOUND], an own row that is already revoked with
    [TOKEN_REVOKED]; the store is not touched in either case. *)
Theorem deleteUserKitHmacToken_refusals (now : Z) (db : Db) (userId : Z)
    (otpCode : option string) (tokenId : Z) :
  checkUserOtpActive cfg now db userId otpCode = resolve tt →
  ((∀ t, t ∈ tokens db → tk_id t = tokenId → tk_user_id t ≠ userId) →
   deleteUserKitHmacToken cfg created_at raw_update now db userId otpCode tokenId
   = (reject (new_Error TOKEN_NOT_FOUND), db))
  ∧ (∀ token,
       findOne (λ t, (tk_id t =? tokenId) && (tk_user_id t =? userId)) (tokens db)
       = Some token →
       tk_revoked token = true →
       deleteUserKitHmacToken cfg created_at raw_update now db userId otpCode
         tokenId
       = (reject (new_Error TOKEN_REVOKED), db)).
Proof.
  intros Hgate. unfold deleteUserKitHmacToken. rewrite Hgate. split.
  - intros Hforeign. rewrite findOne_None; [done|].
    intros t Ht. destruct (Z.eqb_spec (tk_id t) tokenId) as [Hid|]; [|done].
    simpl. apply Z.eqb_neq. by apply Hforeign.
  - intros token -> Hrev. by rewrite Hrev.
Qed.

End Listing.

Lemma substring_prefix (a rest : string) :
  String.substring 0 (String.length a) (a +:+ rest) = a.
Proof.
  induction a as [|c a IH].
  - by destruct rest.
  - rewrite string_app_cons. simpl. by rewrite IH.
Qed.

Lemma substring_short (n : nat) (s : string) :
  (String.length s ≤ n)%nat → String.substring 0 n s = s.
Proof.
  revert n. induction s as [|c s IH]; intros n Hn; [by destruct n|].
  destruct n as [|n]; simpl in *; [lia|]. rewrite IH; [done | lia].
Qed.

(** X24. [maskToken] shows the first three characters of a secret and eight
    stars, whatever follows those three characters; a secret of three
    characters or fewer is shown whole before the stars, and no secret at
    all gives the stars alone. *)
Theorem maskToken_shows_three (a rest s : string) :
  (String.length a = 3%nat →
   maskToken (Some (a +:+ rest)) = a +:+ "********")
  ∧ ((String.length s ≤ 3)%nat → maskToken (Some s) = s +:+ "********")
  ∧ maskToken None = "********".
Proof.
  unfold maskToken. simpl. split; [|split; [|done]].
  - intros Hlen. rewrite <- Hlen. by rewrite substring_prefix.
  - intros Hlen. by rewrite substring_short.
Qed.

(** ** The added properties at work *)

Section MoreExamples.
#[local] Existing Instance Demo.runtime.

Lemma verifyTokenString_reads_second_word_witness :
  verifyTokenString Demo.cfg Demo.now ("Bearer " +:+ "alice.user")
    = jwt_verify "alice.user" "jwt-secret" Demo.now
  ∧ verifyTokenString Demo.cfg Demo.now
      ("Bearer " +:+ "alice.user" +:+ " " +:+ "and more")
    = jwt_verify "alice.user" "jwt-secret" Demo.now.
Proof.
  apply (verifyTokenString_reads_second_word Demo.cfg Demo.now "alice.user"
           "and more").
  reflexivity.
Defined.

Lemma bearer_middleware_agrees_with_promise_witness :
  let d := {| sub := Demo.alice; scopes := ["user"]; ip := None; iss := "kit" |} in
  let req := Demo.request [("authorization", "Bearer alice.user")] in
  verifyBearerTokenMiddleware Demo.cfg Demo.now ∅ req (Some "Bearer alice.user") false
    = [set_req_auth (auth_token d); cb_null]
  ↔ verifyBearerTokenPromise Demo.cfg Demo.now ∅ (Some "Bearer alice.user")
      (swagger req) = resolve d.
Proof.
  intros d req.
  apply (bearer_middleware_agrees_with_promise Demo.cfg Demo.now ∅ req
           (Some "Bearer alice.user") false d).
  split; [vm_compute; reflexivity|].
  exists "Bearer alice.user". vm_compute. reflexivity.
Defined.

Lemma bearer_middleware_answers_once_witness :
  (∃ m, verifyBearerTokenMiddleware Demo.cfg Demo.now ∅ (Demo.request []) None true
        = sendError true (ACCESS_DENIED m))
  ∨ (∃ d, verifyBearerTokenMiddleware Demo.cfg Demo.now ∅ (Demo.request []) None true
          = [set_req_auth (auth_token d); cb_null]).
Proof.
  apply (bearer_middleware_answers_once Demo.cfg Demo.now ∅ (Demo.request [])
           None true).
  intros [[x Hx] _]. vm_compute in Hx. discriminate Hx.
Defined.

Lemma issued_scopes_off_allowlist_witness :
  issued_scopes Demo.cfg DemoKit.roles DemoKit.secrets (Some "203.0.113.9")
    true true true true true
  = ["user"].
Proof.
  apply (issued_scopes_off_allowlist Demo.cfg DemoKit.roles DemoKit.secrets
           ["10.0.0.1"] (Some "203.0.113.9") true true true true true).
  - reflexivity.
  - discriminate.
  - intros [Heq|Hin]%elem_of_cons; [discriminate Heq | by apply elem_of_nil in Hin].
Defined.

Lemma issueToken_then_verify_witness :
  let claims :=
    issued_claims Demo.cfg DemoKit.roles DemoKit.secrets 7 "alice@example.com"
      None true false false false false in
  let token :=
    issueToken Demo.cfg DemoKit.sign DemoKit.roles DemoKit.secrets 1699990000000
      7 "alice@example.com" None true false false false false in
  verifyBearerTokenPromise Demo.cfg Demo.now ∅ (Some ("Bearer " +:+ token)) None
  = resolve claims.
Proof.
  apply (issueToken_then_verify Demo.cfg DemoKit.sign DemoKit.roles DemoKit.secrets
           1699990000000 Demo.now ∅ 7 "alice@example.com" None
           true false false false false).
  - discriminate.
  - reflexivity.
  - vm_compute. reflexivity.
  - vm_compute. discriminate.
Defined.

Lemma verifyHmacTokenPromise_sound_witness :
  js_gt (unix Demo.now) (Some "2000000000") = false
  ∧ ∃ token user,
      token ∈ tokens Demo.store
      ∧ Some "key-2" = Some (tk_key token)
      ∧ tk_active token = true
      ∧ tk_type token ∈ default (BASE_SCOPES Demo.cfg) None
      ∧ Demo.now ≤ tk_expiry token
      ∧ Some (calculateSignature (Some "secret-2") "GET" "/v2/user"
                (Some "2000000000") body_undefined)
        = Some (calculateSignature (Some (tk_secret token)) "GET" "/v2/user"
                  (Some "2000000000") body_undefined)
      ∧ user ∈ users Demo.store
      ∧ user_id user = tk_user_id token
      ∧ Demo.alice = {| sub_id := user_id user; sub_email := user_email user |}.
Proof.
  apply (verifyHmacTokenPromise_sound Demo.cfg Demo.now Demo.store (Some "key-2")
           (Some (calculateSignature (Some "secret-2") "GET" "/v2/user"
                    (Some "2000000000") body_undefined))
           (Some "2000000000") "GET" "/v2/user" body_undefined None Demo.alice).
  vm_compute. reflexivity.
Defined.

Lemma hmac_middleware_agrees_with_promise_witness :
  let req :=
    Demo.request
      [("api-key", "key-2"); ("api-expires", "2000000000");
       ("api-signature", "mac(secret-2,GET/v2/user2000000000)")] in
  verifyHmacTokenMiddleware Demo.cfg Demo.now Demo.store req (Some "key-2") false
    = [set_req_auth (auth_sub Demo.alice); cb_null]
  ↔ verifyHmacTokenPromise Demo.cfg Demo.now Demo.store (Some "key-2")
      (headers req !! "api-signature") (headers req !! "api-expires")
      (method req) (originalUrl req) (body req) (swagger req)
    = resolve Demo.alice.
Proof.
  intros req.
  apply (hmac_middleware_agrees_with_promise Demo.cfg Demo.now Demo.store req
           (Some "key-2") false Demo.alice).
  - exists "key-2". vm_compute. reflexivity.
  - vm_compute. reflexivity.
Defined.

Lemma created_key_verifies_witness :
  let created :=
    createUserKitHmacToken Demo.cfg Demo.now "a1b2" "c3d4" Demo.enrolled 7
      (Some (hotp "seed" 56666666)) None (Some "bot") in
  let apiSignature :=
    calculateSignature (Some "c3d4") "GET" "/v2/user" (Some "2000000000")
      body_undefined in
  let result (required : option (list string)) :=
    verifyHmacTokenPromise Demo.cfg (Demo.now + 60000) created.2 (Some "a1b2")
      (Some apiSignature) (Some "2000000000") "GET" "/v2/user" body_undefined
      required in
  (∃ email, result (Some ["hmac"]) = resolve {| sub_id := 7; sub_email := email |})
  ∧ result None = reject (new_Error API_KEY_OUT_OF_SCOPE).
Proof.
  intros created apiSignature result.
  assert (created = (resolve {| nk_id := 7; nk_apiKey := "a1b2"; nk_secret := "c3d4" |},
                     created.2)) as Hcreated by (vm_compute; reflexivity).
  assert (∀ t, t ∈ tokens Demo.enrolled → tk_key t ≠ "a1b2") as Hfresh.
  { intros t [->|[->|Hin]%elem_of_cons]%elem_of_cons;
      [discriminate | discriminate | by apply elem_of_nil in Hin]. }
  split.
  - apply (created_key_verifies Demo.cfg Demo.now "a1b2" "c3d4" Demo.enrolled
             created.2 7 (Some (hotp "seed" 56666666)) None (Some "bot")
             {| nk_id := 7; nk_apiKey := "a1b2"; nk_secret := "c3d4" |}
             (Demo.now + 60000) (Some "2000000000") "GET" "/v2/user"
             body_undefined (Some ["hmac"]) Hcreated);
      [discriminate | exact Hfresh | vm_compute; discriminate
      | vm_compute; reflexivity | vm_compute; discriminate
      | apply list_elem_of_here].
  - apply (created_key_verifies Demo.cfg Demo.now "a1b2" "c3d4" Demo.enrolled
             created.2 7 (Some (hotp "seed" 56666666)) None (Some "bot")
             {| nk_id := 7; nk_apiKey := "a1b2"; nk_secret := "c3d4" |}
             (Demo.now + 60000) (Some "2000000000") "GET" "/v2/user"
             body_undefined None Hcreated);
      [discriminate | exact Hfresh | vm_compute; discriminate
      | vm_compute; reflexivity | vm_compute; discriminate |].
    intros [Heq|Hin]%elem_of_cons; [discriminate Heq | by apply elem_of_nil in Hin].
Defined.

Lemma createUserKitHmacToken_outcomes_witness :
  let out :=
    createUserKitHmacToken Demo.cfg Demo.now "a1b2" "c3d4" Demo.enrolled 7
      (Some "000000") None None in
  (∃ e, out.1 = reject e ∧ out.2 = Demo.enrolled)
  ∨ (out.1 = resolve {| nk_id := 7; nk_apiKey := "a1b2"; nk_secret := "c3d4" |}
     ∧ (∃ user row,
          findOne (λ u, user_id u =? 7) (users Demo.enrolled) = Some user
          ∧ otp_enabled user = true
          ∧ row ∈ otp_codes Demo.enrolled ∧ otp_used row = true
          ∧ otp_user_id row = 7
          ∧ verifyOtp Demo.cfg Demo.now (otp_secret row) (Some "000000") = true)
     ∧ (∃ new, tokens out.2 = tokens Demo.enrolled ++ [new]
               ∧ tk_key new = "a1b2" ∧ tk_secret new = "c3d4"
               ∧ tk_user_id new = 7
               ∧ tk_active new = true ∧ tk_revoked new = false
               ∧ tk_expiry new = Demo.now + HMAC_TOKEN_EXPIRY Demo.cfg)
     ∧ users out.2 = users Demo.enrolled ∧ otp_codes out.2 = otp_codes Demo.enrolled
     ∧ reset_password_codes out.2 = reset_password_codes Demo.enrolled
     ∧ status out.2 = status Demo.enrolled).
Proof.
  intros out.
  apply (createUserKitHmacToken_outcomes Demo.cfg Demo.now "a1b2" "c3d4"
           Demo.enrolled 7 (Some "000000") None None out.1 out.2).
  apply surjective_pairing.
Defined.

End MoreExamples.

Section FlowExamples.
#[local] Existing Instance Demo.runtime.

Lemma reset_code_used_once_witness :
  let first := resetUserPassword DemoKit.pending "f00d" "new pass 2" in
  resetUserPassword first.2 "f00d" "again pass 3"
  = (reject (new_Error CODE_USED), first.2).
Proof.
  intros first.
  apply (reset_code_used_once DemoKit.pending first.2 "f00d" "new pass 2"
           "again pass 3"
           {| user_id := 7; user_email := "alice@example.com";
              otp_enabled := false; password := "new pass 2" |}).
  - vm_compute. reflexivity.
  - vm_compute. reflexivity.
Defined.

Lemma reset_code_resets_password_witness :
  let user := {| user_id := 7; user_email := "alice@example.com";
                 otp_enabled := false; password := "hash" |} in
  ∃ code db1 db2,
    createResetPasswordCode "9b2e" Demo.store 7 = (resolve code, db1)
    ∧ resetUserPassword db1 code "new pass 2"
      = (resolve (set_password "new pass 2" user), db2)
    ∧ findOne (λ u, user_id u =? 7) (users db2)
      = Some (set_password "new pass 2" user)
    ∧ ∀ again, isValidPassword again = true →
        resetUserPassword db2 code again = (reject (new_Error CODE_USED), db2).
Proof.
  intros user.
  apply (reset_code_resets_password "9b2e" Demo.store 7 user "new pass 2").
  - apply NoDup_singleton.
  - intros [Heq|Hin]%elem_of_cons; [discriminate Heq | by apply elem_of_nil in Hin].
  - reflexivity.
  - vm_compute. reflexivity.
Defined.

Lemma changeUserPassword_outcomes_witness :
  let out :=
    changeUserPassword DemoKit.compare DemoKit.pending "alice@example.com"
      "old pass 1" "new pass 2" in
  (∃ e, out.1 = reject e ∧ out.2 = DemoKit.pending)
  ∨ ("old pass 1" ≠ "new pass 2"
     ∧ isValidPassword "new pass 2" = true
     ∧ ∃ user,
         findOne (λ u, String.eqb (user_email u) "alice@example.com")
           (users DemoKit.pending) = Some user
         ∧ DemoKit.compare "old pass 1" (password user) = true
         ∧ out.1 = resolve (set_password "new pass 2" user)
         ∧ findOne (λ u, String.eqb (user_email u) "alice@example.com")
             (users out.2) = Some (set_password "new pass 2" user)
         ∧ user_id <$> users out.2 = user_id <$> users DemoKit.pending
         ∧ user_email <$> users out.2 = user_email <$> users DemoKit.pending
         ∧ otp_enabled <$> users out.2 = otp_enabled <$> users DemoKit.pending
         ∧ tokens out.2 = tokens DemoKit.pending
         ∧ otp_codes out.2 = otp_codes DemoKit.pending
         ∧ reset_password_codes out.2 = reset_password_codes DemoKit.pending
         ∧ status out.2 = status DemoKit.pending).
Proof.
  intros out.
  apply (changeUserPassword_outcomes DemoKit.compare DemoKit.pending out.2
           "alice@example.com" "old pass 1" "new pass 2" out.1).
  apply surjective_pairing.
Defined.

Lemma resetUserPassword_frame_witness :
  let out := resetUserPassword DemoKit.pending "f00d" "new pass 2" in
  tokens out.2 = tokens DemoKit.pending
  ∧ otp_codes out.2 = otp_codes DemoKit.pending
  ∧ status out.2 = status DemoKit.pending
  ∧ user_id <$> users out.2 = user_id <$> users DemoKit.pending
  ∧ user_email <$> users out.2 = user_email <$> users DemoKit.pending
  ∧ otp_enabled <$> users out.2 = otp_enabled <$> users DemoKit.pending
  ∧ rc_code <$> reset_password_codes out.2
    = rc_code <$> reset_password_codes DemoKit.pending
  ∧ rc_user_id <$> reset_password_codes out.2
    = rc_user_id <$> reset_password_codes DemoKit.pending
  ∧ (∃ i : nat, ∀ j : nat, j ≠ i → users out.2 !! j = users DemoKit.pending !! j)
  ∧ (∀ (j : nat) u', users out.2 !! j = Some u' →
       ∃ u, users DemoKit.pending !! j = Some u
            ∧ (u' = u ∨ u' = set_password "new pass 2" u))
  ∧ (∃ i : nat, ∀ j : nat, j ≠ i →
       reset_password_codes out.2 !! j = reset_password_codes DemoKit.pending !! j)
  ∧ (∀ (j : nat) c', reset_password_codes out.2 !! j = Some c' →
       ∃ c, reset_password_codes DemoKit.pending !! j = Some c
            ∧ (c' = c ∨ c' = set_used c)).
Proof.
  intros out.
  apply (resetUserPassword_frame DemoKit.pending out.2 "f00d" "new pass 2" out.1).
  apply surjective_pairing.
Defined.

Lemma enrolment_binds_the_secret_witness :
  let user := {| user_id := 7; user_email := "alice@example.com";
                 otp_enabled := false; password := "hash" |} in
  ∃ db1 db2,
    createOtp Demo.now "seed" Demo.store 7 = (resolve "seed", db1)
    ∧ setActiveUserOtp db1 7 = (resolve (set_otp_enabled true user), db2)
    ∧ ∀ later code,
        verifyOtpBeforeAction Demo.cfg later db2 7 code
        = (if verifyOtp Demo.cfg later "seed" code then resolve true
           else reject (new_Error INVALID_OTP_CODE))
        ∧ checkUserOtpActive Demo.cfg later db2 7 code
          = (if verifyOtp Demo.cfg later "seed" code then resolve tt
             else reject (new_Error INVALID_OTP_CODE)).
Proof.
  intros user.
  apply (enrolment_binds_the_secret Demo.cfg Demo.now "seed" Demo.store 7 user).
  - reflexivity.
  - intros c Hc. by apply elem_of_nil in Hc.
Defined.

Lemma setActiveUserOtp_outcomes_witness :
  let db := (createOtp Demo.now "seed" Demo.store 7).2 in
  let out := setActiveUserOtp db 7 in
  (∃ e, out.1 = reject e ∧ out.2 = db)
  ∨ ((∃ user, out.1 = resolve user ∧ otp_enabled user = true)
     ∧ hasUserOtpEnabled out.2 7 = resolve true
     ∧ S (length (List.filter (pending_secret 7) (otp_codes out.2)))
       = length (List.filter (pending_secret 7) (otp_codes db))
     ∧ otp_secret <$> otp_codes out.2 = otp_secret <$> otp_codes db
     ∧ otp_user_id <$> otp_codes out.2 = otp_user_id <$> otp_codes db
     ∧ user_id <$> users out.2 = user_id <$> users db
     ∧ user_email <$> users out.2 = user_email <$> users db
     ∧ password <$> users out.2 = password <$> users db
     ∧ tokens out.2 = tokens db
     ∧ reset_password_codes out.2 = reset_password_codes db
     ∧ status out.2 = status db).
Proof.
  intros db out.
  apply (setActiveUserOtp_outcomes db out.2 7 out.1).
  apply surjective_pairing.
Defined.

Lemma deleteUserKitHmacToken_outcomes_witness :
  let code := Some (hotp "seed" 56666666) in
  let out :=
    deleteUserKitHmacToken Demo.cfg DemoKit.created DemoKit.update Demo.now
      Demo.enrolled 7 code 2 in
  (∃ e, out.1 = reject e ∧ out.2 = Demo.enrolled)
  ∨ ∃ token updated,
      checkUserOtpActive Demo.cfg Demo.now Demo.enrolled 7 code = resolve tt
      ∧ token ∈ tokens Demo.enrolled
      ∧ tk_id token = 2
      ∧ tk_user_id token = 7
      ∧ tk_revoked token = false
      ∧ DemoKit.update Demo.enrolled token = (updated, out.2)
      ∧ out.1 = promise_then
                  (λ t, resolve (formatTokenObject DemoKit.created t)) updated.
Proof.
  intros code out.
  apply (deleteUserKitHmacToken_outcomes Demo.cfg DemoKit.created DemoKit.update
           Demo.now Demo.enrolled out.2 7 code 2 out.1).
  apply surjective_pairing.
Defined.

Lemma deleteUserKitHmacToken_refusals_witness :
  let code := Some (hotp "seed" 56666666) in
  deleteUserKitHmacToken Demo.cfg DemoKit.created DemoKit.update Demo.now
    Demo.enrolled 7 code 5
  = (reject (new_Error TOKEN_NOT_FOUND), Demo.enrolled)
  ∧ deleteUserKitHmacToken Demo.cfg DemoKit.created DemoKit.update Demo.now
      Demo.enrolled 7 code 1
    = (reject (new_Error TOKEN_REVOKED), Demo.enrolled).
Proof.
  intros code.
  pose proof (deleteUserKitHmacToken_refusals Demo.cfg DemoKit.created
                DemoKit.update Demo.now Demo.enrolled 7 code) as H.
  split.
  - apply (H 5); [vm_compute; reflexivity|].
    intros t [->|[->|Hin]%elem_of_cons]%elem_of_cons;
      [discriminate | discriminate | by apply elem_of_nil in Hin].
  - apply (proj2 (H 1 ltac:(vm_compute; reflexivity)) Demo.revoked_row);
      reflexivity.
Defined.

End FlowExamples.

(** ** Which secret a code is checked against; which keys are listed *)

Lemma findOne_desc_greatest {A} (p : A → bool) (column : A → Z) (l : list A)
    (x : A) :
  findOne_desc p column l = Some x →
  ∀ y, y ∈ l → p y = true → column y ≤ column x.
Proof.
  unfold findOne_desc. intros Hfold y Hy Hp.
  assert (y ∈ List.filter p l) as Hin
    by (apply list_elem_of_In, List.filter_In; by rewrite <- list_elem_of_In).
  clear Hy Hp. revert x Hfold y Hin.
  induction (List.filter p l) as [|a l' IH]; intros x Hfold y Hin.
  - by apply elem_of_nil in Hin.
  - simpl in Hfold. destruct (foldr _ None l') as [b|] eqn:Hrest.
    + specialize (IH b eq_refl).
      destruct (Z.leb_spec (column b) (column a)) as [Hle|Hgt];
        injection Hfold as <-;
        apply elem_of_cons in Hin as [->|Hin]; try lia.
      * specialize (IH y Hin). lia.
      * by apply IH.
    + injection Hfold as <-.
      apply elem_of_cons in Hin as [->|Hin]; [lia|].
      destruct l' as [|c l']; [by apply elem_of_nil in Hin|].
      simpl in Hrest. destruct (foldr _ None l'); [destruct (_ <=? _)|]; done.
Qed.

Lemma next_id_above (table : list Token) (t : Token) :
  t ∈ table → tk_id t < next_id table.
Proof.
  unfold next_id. induction table as [|a table IH]; intros Hin.
  - by apply elem_of_nil in Hin.
  - simpl. apply elem_of_cons in Hin as [->|Hin]; [lia|].
    specialize (IH Hin). lia.
Qed.

Section LatestSecret.
Context `{R : Runtime} (cfg : Config).
Variable created_at : Token → Z.

(** X25. [verifyUserOtpCode] resolves only with [true], and only when
    [verifyOtp] accepts the code against a used secret of the user that no
    other used secret of that user is newer than (by [updated_at]): older
    secrets are not consulted. *)
Theorem verifyUserOtpCode_latest_secret (now : Z) (db : Db) (userId : Z)
    (otp_code : option string) (ok : bool) :
  verifyUserOtpCode cfg now db userId otp_code = resolve ok →
  ok = true
  ∧ ∃ row,
      row ∈ otp_codes db ∧ otp_used row = true ∧ otp_user_id row = userId
      ∧ verifyOtp cfg now (otp_secret row) otp_code = true
      ∧ ∀ other, other ∈ otp_codes db → otp_used other = true →
          otp_user_id other = userId → otp_updated_at other ≤ otp_updated_at row.
Proof.
  unfold verifyUserOtpCode.
  destruct (findOne_desc _ _ (otp_codes db)) as [row|] eqn:Hrow; [|done].
  destruct (verifyOtp cfg now (otp_secret row) otp_code) eqn:Hcode; [|done].
  intros [= <-]. split; [done|]. exists row.
  pose proof (findOne_desc_greatest _ _ _ _ Hrow) as Hmax.
  apply findOne_desc_Some in Hrow as [Hin [Hused Hown]%andb_true_iff].
  apply Z.eqb_eq in Hown. repeat split; try done.
  intros other Hother Hu Ho. apply Hmax; [done|].
  rewrite Hu. simpl. by apply Z.eqb_eq.
Qed.

(** X26. [createUserKitHmacToken] stores the new row with role [ROLES.USER],
    [getUserKitHmacTokens] lists the rows with role [TOKEN_TYPES.HMAC]: the
    key just created shows in its owner's listing exactly when the two
    constants are the same. *)
Theorem created_key_listed_iff (now : Z) (randomKey randomSecret : string)
    (db db' : Db) (userId : Z) (otpCode ip name : option string) (key : NewKey)
    (listing : TokenList) :
  createUserKitHmacToken cfg now randomKey randomSecret db userId otpCode ip name
    = (resolve key, db') →
  getUserKitHmacTokens cfg created_at db' userId = resolve listing →
  (∃ entry, entry ∈ data listing ∧ ft_id entry = next_id (tokens db))
  ↔ ROLES_USER cfg = TOKEN_TYPES_HMAC cfg.
Proof.
  unfold createUserKitHmacToken, getUserKitHmacTokens.
  destruct (checkUserOtpActive cfg now db userId otpCode); [|done].
  intros [= _ <-] [= <-]. simpl.
  set (new := {| tk_id := next_id (tokens db); tk_user_id := userId; tk_ip := ip;
                 tk_key := randomKey; tk_secret := randomSecret;
                 tk_expiry := now + HMAC_TOKEN_EXPIRY cfg;
                 tk_role := ROLES_USER cfg; tk_type := TOKEN_TYPES_HMAC cfg;
                 tk_name := name; tk_active := true; tk_revoked := false |}).
  assert (∀ t, t ∈ merge_sort (listed_before created_at)
                     (List.filter (λ t, (tk_user_id t =? userId)
                                        && String.eqb (tk_role t) (TOKEN_TYPES_HMAC cfg))
                        (tokens db ++ [new]))
               ↔ (t ∈ tokens db ∨ t = new) ∧ tk_user_id t = userId
                 ∧ tk_role t = TOKEN_TYPES_HMAC cfg) as Hrows.
  { intros t. rewrite merge_sort_Permutation.
    rewrite list_elem_of_In, List.filter_In, <- list_elem_of_In.
    rewrite elem_of_app, list_elem_of_singleton.
    rewrite andb_true_iff, Z.eqb_eq, String.eqb_eq. tauto. }
  split.
  - intros (entry & Hin & Hid).
    apply list_elem_of_fmap in Hin as (t & -> & Ht).
    apply Hrows in Ht as ([Hold| ->] & _ & Hrole); [|done].
    apply next_id_above in Hold. simpl in Hid. lia.
  - intros Hsame. exists (formatTokenObject created_at new). split; [|done].
    apply list_elem_of_fmap_2, Hrows. split; [by right|]. by split.
Qed.

End LatestSecret.

Section LatestExamples.
#[local] Existing Instance Demo.runtime.

Lemma verifyUserOtpCode_latest_secret_witness :
  true = true
  ∧ ∃ row,
      row ∈ otp_codes Demo.enrolled ∧ otp_used row = true ∧ otp_user_id row = 7
      ∧ verifyOtp Demo.cfg Demo.now (otp_secret row) (Some (hotp "seed" 56666667))
        = true
      ∧ ∀ other, other ∈ otp_codes Demo.enrolled → otp_used other = true →
          otp_user_id other = 7 → otp_updated_at other ≤ otp_updated_at row.
Proof.
  apply (verifyUserOtpCode_latest_secret Demo.cfg Demo.now Demo.enrolled 7
           (Some (hotp "seed" 56666667)) true).
  vm_compute. reflexivity.
Defined.

Lemma created_key_listed_iff_witness :
  let created :=
    createUserKitHmacToken Demo.cfg Demo.now "a1b2" "c3d4" Demo.enrolled 7
      (Some (hotp "seed" 56666666)) None (Some "bot") in
  let listing :=
    {| count := 0; data := [] |} in
  (∃ entry, entry ∈ data listing ∧ ft_id entry = next_id (tokens Demo.enrolled))
  ↔ ROLES_USER Demo.cfg = TOKEN_TYPES_HMAC Demo.cfg.
Proof.
  intros created listing.
  apply (created_key_listed_iff Demo.cfg DemoKit.created Demo.now "a1b2" "c3d4"
           Demo.enrolled created.2 7 (Some (hotp "seed" 56666666)) None
           (Some "bot") {| nk_id := 7; nk_apiKey := "a1b2"; nk_secret := "c3d4" |}
           listing).
  - vm_compute. reflexivity.
  - vm_compute. reflexivity.
Defined.

End LatestExamples.
